(** * Room-join orchestration of the client API (clientapi/routing/joinroom.go)

    A shallow embedding of the join handler: the dispatcher
    [JoinRoomByIDOrAlias], the candidate-server resolution of [joinRoomByID],
    alias resolution, the event draft written by [writeToBuilder], the local
    join path and the sequential fallback over candidate servers of
    [joinRoomUsingServers], and the per-candidate handshake
    [joinRoomUsingServer].

    The collaborators of the handler (room server query and alias APIs, the
    federation client, the key ring, the event producer, the accounts
    database) are interfaces in the Go code.  They are embedded as records of
    state-passing functions over an abstract world [W]; every call the handler
    makes is recorded, with its arguments and its answer, in a chronological
    trace, so that statements about "what was called, in which order" are
    statements about that trace. *)

From Stdlib Require Import ZArith String Ascii List.
From stdpp Require Import base gmap strings list.

#[local] Set Warnings "-clear-no-such-hyp".

Local Open Scope string_scope.
Local Open Scope Z_scope.
Local Open Scope list_scope.

(** ** Go strings: prefixes and the first rune *)

Module GoString.

(** [strings.HasPrefix s prefix]. *)
Definition HasPrefix (s prefix : string) : bool := String.prefix prefix s.

Definition byte_of (c : ascii) : Z := Z.of_N (N_of_ascii c).
Definition char_of (b : Z) : ascii := ascii_of_N (Z.to_N b).

(** The Unicode replacement character, [utf8.RuneError]. *)
Definition RuneError : Z := 65533.

Definition inRange (lo hi b : Z) : bool := (lo <=? b) && (b <=? hi).

(** Size of the encoding announced by a leading byte, with the range the
    second byte has to lie in; [None] for ASCII and for bytes that cannot
    start an encoding (the table [first] and [acceptRanges] of unicode/utf8). *)
Definition leading (s0 : Z) : option (nat * (Z * Z)) :=
  if inRange 194 223 s0 then Some (2%nat, (128, 191))
  else if s0 =? 224 then Some (3%nat, (160, 191))
  else if inRange 225 236 s0 then Some (3%nat, (128, 191))
  else if s0 =? 237 then Some (3%nat, (128, 159))
  else if inRange 238 239 s0 then Some (3%nat, (128, 191))
  else if s0 =? 240 then Some (4%nat, (144, 191))
  else if inRange 241 243 s0 then Some (4%nat, (128, 191))
  else if s0 =? 244 then Some (4%nat, (128, 143))
  else None.

Definition cont (b : Z) : bool := inRange 128 191 b.

(** The first rune of a non-empty string, as the conversion [[]rune(s)]
    decodes it: an ill-formed or truncated encoding decodes to [RuneError]. *)
Definition decodeFirst (c0 : ascii) (rest : string) : Z :=
  let s0 := byte_of c0 in
  if s0 <? 128 then s0
  else match leading s0 with
  | None => RuneError
  | Some (sz, (lo, hi)) =>
    match rest with
    | String c1 rest1 =>
      let s1 := byte_of c1 in
      if negb (inRange lo hi s1) then RuneError
      else if (sz <=? 2)%nat then Z.lor (Z.shiftl (Z.land s0 31) 6) (Z.land s1 63)
      else match rest1 with
      | String c2 rest2 =>
        let s2 := byte_of c2 in
        if negb (cont s2) then RuneError
        else if (sz <=? 3)%nat then
          Z.lor (Z.lor (Z.shiftl (Z.land s0 15) 12) (Z.shiftl (Z.land s1 63) 6))
                (Z.land s2 63)
        else match rest2 with
        | String c3 _ =>
          let s3 := byte_of c3 in
          if negb (cont s3) then RuneError
          else Z.lor (Z.lor (Z.lor (Z.shiftl (Z.land s0 7) 18)
                                   (Z.shiftl (Z.land s1 63) 12))
                            (Z.shiftl (Z.land s2 63) 6))
                     (Z.land s3 63)
        | EmptyString => RuneError
        end
      | EmptyString => RuneError
      end
    | EmptyString => RuneError
    end
  end.

(** [[]rune(s)[0]]: indexing the rune slice of the empty string is out of
    range, which is [None] here. *)
Definition firstRune (s : string) : option Z :=
  match s with
  | EmptyString => None
  | String c0 rest => Some (decodeFirst c0 rest)
  end.

Definition str1 (a : Z) : string := String (char_of a) EmptyString.

(** [string(r)] for a rune [r]: its UTF-8 encoding, the encoding of
    [RuneError] for surrogates and values out of range. *)
Definition runeToString (r : Z) : string :=
  if inRange 0 127 r then str1 r
  else if inRange 128 2047 r then
    str1 (Z.lor 192 (Z.shiftr r 6)) +:+ str1 (Z.lor 128 (Z.land r 63))
  else if (r <? 0) || (1114111 <? r) || inRange 55296 57343 r then
    str1 239 +:+ str1 191 +:+ str1 189
  else if r <=? 65535 then
    str1 (Z.lor 224 (Z.shiftr r 12)) +:+ str1 (Z.lor 128 (Z.land (Z.shiftr r 6) 63))
      +:+ str1 (Z.lor 128 (Z.land r 63))
  else
    str1 (Z.lor 240 (Z.shiftr r 18)) +:+ str1 (Z.lor 128 (Z.land (Z.shiftr r 12) 63))
      +:+ str1 (Z.lor 128 (Z.land (Z.shiftr r 6) 63)) +:+ str1 (Z.lor 128 (Z.land r 63)).

End GoString.

Import GoString.

(** ** Data model *)

Definition ServerName := string.
Definition RoomVersion := string.
Definition RawJSON := string.

(** [gomatrixserverlib.RoomVersionV1] and [gomatrixserverlib.Join]. *)
Definition RoomVersionV1 : RoomVersion := "1".
Definition Join : string := "join".

(** Go [error] values, as far as the handler tells them apart: the sentinel
    [common.ErrRoomNoExists], the type [gomatrix.HTTPError], anything else. *)
Inductive error : Type :=
| ErrRoomNoExists
| HTTPError (Code : Z) (Message : string)
| ErrOther (msg : string).

Global Instance error_eq_dec : EqDecision error.
Proof. solve_decision. Defined.

Definition StatusOK : Z := 200.
Definition StatusBadRequest : Z := 400.
Definition StatusNotFound : Z := 404.
Definition StatusInternalServerError : Z := 500.

Record MatrixError := { ErrCode : string; Err : string }.

(** The body of a response: a Matrix error or the [room_id] object. *)
Inductive JSONBody : Type :=
| BodyError (e : MatrixError)
| BodyRoomID (room_id : string).

(** [util.JSONResponse]. *)
Record JSONResponse := { Code : Z; JSON : JSONBody }.

(** Modelled from the spec: package [jsonerror] (the constructors of Matrix
    error bodies) is outside the files at hand.  The spec classifies the
    outcomes as 400 with a machine-readable reason, 404 and 500; the reason
    codes are those of the Matrix client-server API. *)
Module jsonerror.
Definition BadJSON (msg : string) : JSONBody :=
  BodyError {| ErrCode := "M_BAD_JSON"; Err := msg |}.
Definition NotFound (msg : string) : JSONBody :=
  BodyError {| ErrCode := "M_NOT_FOUND"; Err := msg |}.
Definition InvalidArgumentValue (msg : string) : JSONBody :=
  BodyError {| ErrCode := "M_INVALID_ARGUMENT_VALUE"; Err := msg |}.
Definition UnsupportedRoomVersion (msg : string) : JSONBody :=
  BodyError {| ErrCode := "M_UNSUPPORTED_ROOM_VERSION"; Err := msg |}.
Definition Unknown (msg : string) : JSONBody :=
  BodyError {| ErrCode := "M_UNKNOWN"; Err := msg |}.
Definition InternalServerError : JSONResponse :=
  {| Code := StatusInternalServerError; JSON := Unknown "Internal Server Error" |}.
End jsonerror.

(** What the entry point does: return a response, or panic at run time. *)
Inductive Outcome : Type :=
| Returned (res : JSONResponse)
| Panicked (why : string).

(** Values of the request content, [map[string]interface{}].  [Content] is
    a map that can be written to; where the Go variable may also hold the nil
    map, the model has an [option Content], [None] being nil. *)
Inductive JSONValue : Type :=
| JString (s : string)
| JRaw (raw : RawJSON).

Definition Content := gmap string JSONValue.

Record Profile := { DisplayName : string; AvatarURL : string }.
Record Device := { UserID : string }.

(** [gomatrixserverlib.EventBuilder]: the fields the handler writes, the
    remaining ones (previous and auth events, depth, signatures) kept as they
    came. *)
Record EventBuilder := {
  Sender : string;
  RoomID : string;
  Type_ : string;
  StateKey : option string;
  Redacts : string;
  Content_ : RawJSON;
  Unsigned : RawJSON;
  Linkage : RawJSON
}.

(** The zero value, [var eb gomatrixserverlib.EventBuilder]. *)
Definition zeroEventBuilder : EventBuilder :=
  {| Sender := ""; RoomID := ""; Type_ := ""; StateKey := None; Redacts := "";
     Content_ := ""; Unsigned := ""; Linkage := "" |}.

(** [config.Dendrite], the part under [Matrix] that the handler reads. *)
Record Config := {
  cfgServerName : ServerName;
  cfgKeyID : string;
  cfgPrivateKey : string
}.

Record RespMakeJoin := { JoinEvent : EventBuilder; mjRoomVersion : RoomVersion }.
Record RespDirectory := { dirRoomID : string; dirServers : list ServerName }.

(** ** Collaborators, the call trace and the handler *)

Section JoinRoom.

(** The world the collaborators act on, HTTP requests, signed events
    ([gomatrixserverlib.Event]) and room state snapshots
    ([gomatrixserverlib.RespState]) are kept abstract. *)
Context {W Request Event RespState : Type}.

Definition Time := Z.

(** [event.Headered(roomVersion)]. *)
Record HeaderedEvent := Headered { hEvent : Event; hRoomVersion : RoomVersion }.

Record RespSendJoin := { sjRespState : RespState }.

Inductive Level : Type := LevelWarn | LevelError.

(** One entry of the trace: a call made by the handler, with its arguments
    and the answer it got, or a log line. *)
Inductive Call : Type :=
| CUnmarshalJSONRequest (res : JSONResponse + option Content)
| CGetProfileByLocalpart (localpart : string) (res : error + Profile)
| CQueryInvitesForUser (roomID targetUserID : string) (res : error + list string)
| CGetRoomIDForAlias (alias : string) (res : error + string)
| CLookupRoomAlias (domain : ServerName) (roomAlias : string)
    (res : error + RespDirectory)
| CBuildEvent (eb : EventBuilder) (evTime : Time)
    (res : error + (Event * RoomVersion))
| CSendEvents (events : list HeaderedEvent) (sendAsServer : ServerName)
    (res : error + string)
| CQueryRoomVersionCapabilities (res : error + list (RoomVersion * string))
| CMakeJoin (server : ServerName) (roomID userID : string)
    (versions : list RoomVersion) (res : error + RespMakeJoin)
| CBuild (eb : EventBuilder) (roomVersion : RoomVersion) (res : error + Event)
| CSendJoin (server : ServerName) (event : Event) (roomVersion : RoomVersion)
    (res : error + RespSendJoin)
| CCheck (resp : RespSendJoin) (event : Event) (res : option error)
| CSendEventWithState (state : RespState) (event : HeaderedEvent)
    (res : option error)
| CLog (level : Level) (err : option error) (server : option ServerName)
    (msg : string).

(** State passing over the world, with the trace of the calls made. *)
Definition M (A : Type) : Type := W -> A * W * list Call.

Definition ret {A} (a : A) : M A := fun w => (a, w, []).

Definition bind {A B} (m : M A) (f : A -> M B) : M B :=
  fun w =>
    let '(a, w1, t1) := m w in
    let '(b, w2, t2) := f a w1 in
    (b, w2, t1 ++ t2).

(** A call to a collaborator: run it on the world, record call and answer. *)
Definition call {A} (f : W -> A * W) (c : A -> Call) : M A :=
  fun w => let '(a, w1) := f w in (a, w1, [c a]).

(** A call to a pure library function, recorded as well. *)
Definition note {A} (a : A) (c : A -> Call) : M A := fun w => (a, w, [c a]).

Definition log (level : Level) (err : option error) (server : option ServerName)
    (msg : string) : M unit :=
  fun w => (tt, w, [CLog level err server msg]).

Notation "'let*' x ':=' m 'in' k" := (bind m (fun x => k))
  (at level 10, x name, m at level 100, k at level 200).
Notation "m ';;' k" := (bind m (fun _ => k))
  (at level 100, k at level 200, right associativity).

(** [producers.RoomserverProducer]. *)
Record RoomserverProducer := {
  SendEvents : list HeaderedEvent -> ServerName -> W -> (error + string) * W;
  SendEventWithState : RespState -> HeaderedEvent -> W -> option error * W
}.

(** [roomserverAPI.RoomserverQueryAPI].  The available room versions are a Go
    map; the handler ranges over it, in an order Go leaves open, so the answer
    lists the entries in the order of that iteration. *)
Record RoomserverQueryAPI := {
  QueryInvitesForUser : string -> string -> W -> (error + list string) * W;
  QueryRoomVersionCapabilities : W -> (error + list (RoomVersion * string)) * W
}.

(** [roomserverAPI.RoomserverAliasAPI]. *)
Record RoomserverAliasAPI := {
  GetRoomIDForAlias : string -> W -> (error + string) * W
}.

(** [gomatrixserverlib.FederationClient]. *)
Record FederationClient := {
  LookupRoomAlias : ServerName -> string -> W -> (error + RespDirectory) * W;
  MakeJoin : ServerName -> string -> string -> list RoomVersion -> W ->
             (error + RespMakeJoin) * W;
  SendJoin : ServerName -> Event -> RoomVersion -> W -> (error + RespSendJoin) * W
}.

(** [gomatrixserverlib.KeyRing], as far as [RespSendJoin.Check] uses it. *)
Record KeyRing := {
  Check : RespSendJoin -> Event -> W -> option error * W
}.

(** [accounts.Database]. *)
Record AccountsDatabase := {
  GetProfileByLocalpart : string -> W -> (error + Profile) * W
}.

(** Functions of other packages that the handler calls and whose code is not
    part of this file's subject; they are parameters of the development.
    - [UnmarshalJSONRequest], [ParseTSParam]: package httputil
      ([UnmarshalJSONRequest] answers with an error response or with what it
      left in the content variable, which is the nil map [None] when the body
      is the JSON null; [ParseTSParam] answers with the text of its error);
    - [SplitID]: gomatrixserverlib, the local part and the domain of an
      identifier with the given sigil;
    - [BuildEvent]: [common.BuildEvent], which materialises a draft against
      the local room state and answers with the event and the room version,
      or with [ErrRoomNoExists] when the room is not known locally;
    - [EventFormat]: the table of event formats per room version;
    - [Build]: [EventBuilder.Build], finalising and signing a draft;
    - [marshalContent]: [json.Marshal] at the content map. *)
Record Externals := {
  UnmarshalJSONRequest : Request -> W -> (JSONResponse + option Content) * W;
  ParseTSParam : Request -> string + Time;
  SplitID : ascii -> string -> error + (string * ServerName);
  BuildEvent : EventBuilder -> Config -> Time -> RoomserverQueryAPI -> W ->
               (error + (Event * RoomVersion)) * W;
  EventFormat : RoomVersion -> error + Z;
  Build : EventBuilder -> Time -> ServerName -> string -> string ->
          RoomVersion -> error + Event;
  marshalContent : Content -> error + RawJSON
}.

Variable ext : Externals.

(** [joinRoomReq]. *)
Record joinRoomReq := {
  req : Request;
  evTime : Time;
  content : Content;
  userID : string;
  cfg : Config;
  federation : FederationClient;
  producer : RoomserverProducer;
  queryAPI : RoomserverQueryAPI;
  aliasAPI : RoomserverAliasAPI;
  keyRing : KeyRing
}.

(** [eb.SetContent(content)]. *)
Definition SetContent (eb : EventBuilder) (c : Content) : error + EventBuilder :=
  match marshalContent ext c with
  | inl err => inl err
  | inr raw =>
    inr {| Sender := Sender eb; RoomID := RoomID eb; Type_ := Type_ eb;
           StateKey := StateKey eb; Redacts := Redacts eb; Content_ := raw;
           Unsigned := Unsigned eb; Linkage := Linkage eb |}
  end.

(** [json.Marshal(struct{}{})] is the empty object and cannot fail. *)
Definition marshalEmptyStruct : error + RawJSON := inr "{}".

(** [eb.SetUnsigned(struct{}{})]. *)
Definition SetUnsigned (eb : EventBuilder) : error + EventBuilder :=
  match marshalEmptyStruct with
  | inl err => inl err
  | inr raw =>
    inr {| Sender := Sender eb; RoomID := RoomID eb; Type_ := Type_ eb;
           StateKey := StateKey eb; Redacts := Redacts eb; Content_ := Content_ eb;
           Unsigned := raw; Linkage := Linkage eb |}
  end.

(** [writeToBuilder]: the draft of the membership event, written over
    whatever the builder held.  On an error the builder is not used again by
    either caller, so only the error is returned. *)
Definition writeToBuilder (r : joinRoomReq) (eb : EventBuilder) (roomID : string)
  : error + EventBuilder :=
  let eb1 := {| Sender := Sender eb; RoomID := RoomID eb; Type_ := "m.room.member";
                StateKey := StateKey eb; Redacts := Redacts eb;
                Content_ := Content_ eb; Unsigned := Unsigned eb;
                Linkage := Linkage eb |} in
  match SetContent eb1 (content r) with
  | inl err => inl err
  | inr eb2 =>
    match SetUnsigned eb2 with
    | inl err => inl err
    | inr eb3 =>
      inr {| Sender := userID r; RoomID := roomID; Type_ := Type_ eb3;
             StateKey := Some (userID r); Redacts := "";
             Content_ := Content_ eb3; Unsigned := Unsigned eb3;
             Linkage := Linkage eb3 |}
    end
  end.

Definition roomIDResponse (roomID : string) : JSONResponse :=
  {| Code := StatusOK; JSON := BodyRoomID roomID |}.

(** The room version a make-join answer stands for: version 1 when the
    answer leaves it out. *)
Definition effectiveRoomVersion (respMakeJoin : RespMakeJoin) : RoomVersion :=
  if String.eqb (mjRoomVersion respMakeJoin) "" then RoomVersionV1
  else mjRoomVersion respMakeJoin.

(** [joinRoomUsingServer]: the handshake with one candidate server.  The Go
    function returns either a response and no error, or no response and an
    error. *)
Definition joinRoomUsingServer (r : joinRoomReq) (roomID : string)
    (server : ServerName) : M (error + JSONResponse) :=
  let* response := call (QueryRoomVersionCapabilities (queryAPI r))
                        CQueryRoomVersionCapabilities in
  match response with
  | inl err => ret (inl err)
  | inr available =>
    let supportedVersions := map fst available in
    let* made := call (MakeJoin (federation r) server roomID (userID r) supportedVersions)
                      (CMakeJoin server roomID (userID r) supportedVersions) in
    match made with
    | inl err => ret (inl err)
    | inr respMakeJoin =>
      match writeToBuilder r (JoinEvent respMakeJoin) roomID with
      | inl err => ret (inl err)
      | inr joinEvent =>
        let roomVersion := effectiveRoomVersion respMakeJoin in
        match EventFormat ext roomVersion with
        | inl _ =>
          ret (inr {| Code := StatusBadRequest;
                      JSON := jsonerror.UnsupportedRoomVersion
                        ("Room version '" +:+ roomVersion +:+ "' is not supported") |})
        | inr _ =>
          let* built := note (Build ext joinEvent (evTime r) (cfgServerName (cfg r))
                                (cfgKeyID (cfg r)) (cfgPrivateKey (cfg r)) roomVersion)
                             (CBuild joinEvent roomVersion) in
          match built with
          | inl err =>
            log LevelError (Some err) None "respMakeJoin.JoinEvent.Build failed";;
            ret (inr jsonerror.InternalServerError)
          | inr event =>
            let* sent := call (SendJoin (federation r) server event roomVersion)
                              (CSendJoin server event roomVersion) in
            match sent with
            | inl err => ret (inl err)
            | inr respSendJoin =>
              let* checked := call (Check (keyRing r) respSendJoin event)
                                   (CCheck respSendJoin event) in
              match checked with
              | Some err => ret (inl err)
              | None =>
                let* published :=
                  call (SendEventWithState (producer r) (sjRespState respSendJoin)
                          (Headered event roomVersion))
                       (CSendEventWithState (sjRespState respSendJoin)
                          (Headered event roomVersion)) in
                match published with
                | Some err =>
                  log LevelError (Some err) None "gomatrixserverlib.RespState failed";;
                  ret (inr jsonerror.InternalServerError)
                | None => ret (inr (roomIDResponse roomID))
                end
              end
            end
          end
        end
      end
    end
  end.

(** The loop of [joinRoomUsingServers] over the candidates, with the variable
    [lastErr], and the code after the loop. *)
Fixpoint tryServers (r : joinRoomReq) (roomID : string) (servers : list ServerName)
    (lastErr : option error) : M JSONResponse :=
  match servers with
  | [] =>
    log LevelError lastErr None "failed to join through any server";;
    ret jsonerror.InternalServerError
  | server :: rest =>
    let* attempt := joinRoomUsingServer r roomID server in
    match attempt with
    | inl err =>
      log LevelWarn (Some err) (Some server) "Failed to join room using server";;
      tryServers r roomID rest (Some err)
    | inr response => ret response
    end
  end.

(** [joinRoomUsingServers]. *)
Definition joinRoomUsingServers (r : joinRoomReq) (roomID : string)
    (servers : list ServerName) : M JSONResponse :=
  match writeToBuilder r zeroEventBuilder roomID with
  | inl err =>
    log LevelError (Some err) None "r.writeToBuilder failed";;
    ret jsonerror.InternalServerError
  | inr eb =>
    let* built := call (BuildEvent ext eb (cfg r) (evTime r) (queryAPI r))
                       (CBuildEvent eb (evTime r)) in
    match built with
    | inr (event, roomVersion) =>
      let* sent := call (SendEvents (producer r) [Headered event roomVersion]
                           (cfgServerName (cfg r)))
                        (CSendEvents [Headered event roomVersion]
                           (cfgServerName (cfg r))) in
      match sent with
      | inl err =>
        log LevelError (Some err) None "r.producer.SendEvents failed";;
        ret jsonerror.InternalServerError
      | inr _ => ret (roomIDResponse roomID)
      end
    | inl err =>
      if decide (err <> ErrRoomNoExists) then
        log LevelError (Some err) None "common.BuildEvent failed";;
        ret jsonerror.InternalServerError
      else
        match servers with
        | [] => ret {| Code := StatusNotFound;
                       JSON := jsonerror.NotFound "No candidate servers found for room" |}
        | _ :: _ => tryServers r roomID servers None
        end
    end
  end.

(** [joinRoomByRemoteAlias]. *)
Definition joinRoomByRemoteAlias (r : joinRoomReq) (domain : ServerName)
    (roomAlias : string) : M JSONResponse :=
  let* looked := call (LookupRoomAlias (federation r) domain roomAlias)
                      (CLookupRoomAlias domain roomAlias) in
  match looked with
  | inl err =>
    let notFound :=
      match err with
      | HTTPError code _ => code =? StatusNotFound
      | _ => false
      end in
    if notFound then
      ret {| Code := StatusNotFound; JSON := jsonerror.NotFound "Room alias not found" |}
    else
      log LevelError (Some err) None "r.federation.LookupRoomAlias failed";;
      ret jsonerror.InternalServerError
  | inr resp => joinRoomUsingServers r (dirRoomID resp) (dirServers resp)
  end.

(** [joinRoomByAlias]. *)
Definition joinRoomByAlias (r : joinRoomReq) (roomAlias : string) : M JSONResponse :=
  match SplitID ext "#" roomAlias with
  | inl _ =>
    ret {| Code := StatusBadRequest;
           JSON := jsonerror.BadJSON "Room alias must be in the form '#localpart:domain'" |}
  | inr (_, domain) =>
    if String.eqb domain (cfgServerName (cfg r)) then
      let* queryRes := call (GetRoomIDForAlias (aliasAPI r) roomAlias)
                            (CGetRoomIDForAlias roomAlias) in
      match queryRes with
      | inl err =>
        log LevelError (Some err) None "r.aliasAPI.GetRoomIDForAlias failed";;
        ret jsonerror.InternalServerError
      | inr roomID =>
        if (0 <? String.length roomID)%nat then
          joinRoomUsingServers r roomID [cfgServerName (cfg r)]
        else
          ret {| Code := StatusNotFound;
                 JSON := jsonerror.NotFound ("Room alias " +:+ roomAlias +:+ " not found.") |}
      end
    else joinRoomByRemoteAlias r domain roomAlias
  end.

(** [seenInInviterIDs[domain]]: a key that is absent reads as [false]. *)
Definition seen (seenInInviterIDs : gmap ServerName bool) (domain : ServerName) : bool :=
  default false (seenInInviterIDs !! domain).

(** The loop of [joinRoomByID] over the inviters, on its two variables
    [servers] and [seenInInviterIDs]; it stops at the first user ID that
    [SplitID] rejects. *)
Fixpoint inviterServers (inviteSenderUserIDs : list string)
    (servers : list ServerName) (seenInInviterIDs : gmap ServerName bool)
  : error + (list ServerName * gmap ServerName bool) :=
  match inviteSenderUserIDs with
  | [] => inr (servers, seenInInviterIDs)
  | userID :: rest =>
    match SplitID ext "@" userID with
    | inl err => inl err
    | inr (_, domain) =>
      if negb (seen seenInInviterIDs domain) then
        inviterServers rest (servers ++ [domain]) (<[domain := true]> seenInInviterIDs)
      else inviterServers rest servers seenInInviterIDs
    end
  end.

(** The candidate servers of [joinRoomByID]: the loop, then the domain of the
    room ID. *)
Definition candidateServers (r : joinRoomReq) (inviteSenderUserIDs : list string)
    (roomID : string) : error + list ServerName :=
  match inviterServers inviteSenderUserIDs [] ∅ with
  | inl err => inl err
  | inr (servers, seenInInviterIDs) =>
    match SplitID ext "!" roomID with
    | inl err => inl err
    | inr (_, domain) =>
      if negb (String.eqb domain (cfgServerName (cfg r)))
         && negb (seen seenInInviterIDs domain)
      then inr (servers ++ [domain])
      else inr servers
    end
  end.

(** [joinRoomByID]. *)
Definition joinRoomByID (r : joinRoomReq) (roomID : string) : M JSONResponse :=
  let* queryRes := call (QueryInvitesForUser (queryAPI r) roomID (userID r))
                        (CQueryInvitesForUser roomID (userID r)) in
  match queryRes with
  | inl err =>
    log LevelError (Some err) None "r.queryAPI.QueryInvitesForUser failed";;
    ret jsonerror.InternalServerError
  | inr inviteSenderUserIDs =>
    match candidateServers r inviteSenderUserIDs roomID with
    | inl err =>
      log LevelError (Some err) None "gomatrixserverlib.SplitID failed";;
      ret jsonerror.InternalServerError
    | inr servers => joinRoomUsingServers r roomID servers
    end
  end.

(** [JoinRoomByIDOrAlias], the entry point.  It panics in two places: the
    write of the membership key panics when the content is the nil map, and
    the last branch indexes the runes of the target at 0, which panics when
    there is none. *)
Definition JoinRoomByIDOrAlias (request : Request) (device : Device)
    (roomIDOrAlias : string) (config : Config) (fed : FederationClient)
    (prod : RoomserverProducer) (query : RoomserverQueryAPI)
    (alias : RoomserverAliasAPI) (ring : KeyRing) (accountDB : AccountsDatabase)
  : M Outcome :=
  let* parsed := call (UnmarshalJSONRequest ext request) CUnmarshalJSONRequest in
  match parsed with
  | inl resErr => ret (Returned resErr)
  | inr body =>
    match ParseTSParam ext request with
    | inl msg =>
      ret (Returned {| Code := StatusBadRequest;
                       JSON := jsonerror.InvalidArgumentValue msg |})
    | inr ts =>
      match SplitID ext "@" (UserID device) with
      | inl err =>
        log LevelError (Some err) None "gomatrixserverlib.SplitID failed";;
        ret (Returned jsonerror.InternalServerError)
      | inr (localpart, _) =>
        let* found := call (GetProfileByLocalpart accountDB localpart)
                           (CGetProfileByLocalpart localpart) in
        match found with
        | inl err =>
          log LevelError (Some err) None "accountDB.GetProfileByLocalpart failed";;
          ret (Returned jsonerror.InternalServerError)
        | inr profile =>
          match body with
          | None => ret (Panicked "assignment to entry in nil map")
          | Some content0 =>
          let content1 := <["membership" := JString Join]> content0 in
          let content2 := <["displayname" := JString (DisplayName profile)]> content1 in
          let content3 := <["avatar_url" := JString (AvatarURL profile)]> content2 in
          let r := {| req := request; evTime := ts; content := content3;
                      userID := UserID device; cfg := config; federation := fed;
                      producer := prod; queryAPI := query; aliasAPI := alias;
                      keyRing := ring |} in
          if HasPrefix roomIDOrAlias "!" then
            let* res := joinRoomByID r roomIDOrAlias in ret (Returned res)
          else if HasPrefix roomIDOrAlias "#" then
            let* res := joinRoomByAlias r roomIDOrAlias in ret (Returned res)
          else
            match firstRune roomIDOrAlias with
            | None => ret (Panicked "index out of range [0] with length 0")
            | Some c =>
              ret (Returned {| Code := StatusBadRequest;
                               JSON := jsonerror.BadJSON
                                 ("Invalid first character '" +:+ runeToString c
                                    +:+ "' for room ID or alias") |})
            end
          end
        end
      end
    end
  end.

(** ** Reading the trace *)

(** Calls of the event publication capability. *)
Definition isPublish (c : Call) : bool :=
  match c with
  | CSendEvents _ _ _ | CSendEventWithState _ _ _ => true
  | _ => false
  end.


(** The remote servers contacted, in order, one entry per remote call. *)
Definition contacted (tr : list Call) : list ServerName :=
  omap (fun c => match c with
                 | CMakeJoin server _ _ _ _ | CSendJoin server _ _ _ => Some server
                 | CLookupRoomAlias server _ _ => Some server
                 | _ => None
                 end) tr.

(** The room versions an event was built, sent and published with. *)
Definition versionsUsed (tr : list Call) : list RoomVersion :=
  omap (fun c => match c with
                 | CBuild _ v _ | CSendJoin _ _ v _ => Some v
                 | CSendEventWithState _ h _ => Some (hRoomVersion h)
                 | _ => None
                 end) tr.

(** The drafts handed over to be finalised into an event. *)
Definition finalised (tr : list Call) : list EventBuilder :=
  omap (fun c => match c with
                 | CBuild eb _ _ | CBuildEvent eb _ _ => Some eb
                 | _ => None
                 end) tr.

(** The fields of a join draft of request [r] for room [roomID]. *)
Definition isJoinDraft (r : joinRoomReq) (roomID : string) (eb : EventBuilder) : Prop :=
  Type_ eb = "m.room.member" /\
  marshalContent ext (content r) = inr (Content_ eb) /\
  Sender eb = userID r /\
  StateKey eb = Some (userID r) /\
  RoomID eb = roomID /\
  Unsigned eb = "{}" /\
  Redacts eb = "".

(** [allFailed r roomID servers w e w' tr e']: from world [w] and with
    [lastErr = e], the attempts on [servers], one after the other, all end in
    an error; they leave the world [w'], the trace [tr] (each attempt followed
    by its warning) and [lastErr = e']. *)
Inductive allFailed (r : joinRoomReq) (roomID : string)
  : list ServerName -> W -> option error -> W -> list Call -> option error -> Prop :=
| allFailed_nil w e : allFailed r roomID [] w e w [] e
| allFailed_cons server rest w e err w1 t1 w2 t2 e' :
    joinRoomUsingServer r roomID server w = (inl err, w1, t1) ->
    allFailed r roomID rest w1 (Some err) w2 t2 e' ->
    allFailed r roomID (server :: rest) w e w2
      (t1 ++ CLog LevelWarn (Some err) (Some server) "Failed to join room using server"
          :: t2) e'.

End JoinRoom.

(** The distinct elements of a list in the order in which they are first
    seen. *)
Fixpoint firstSeen (l : list ServerName) : list ServerName :=
  match l with
  | [] => []
  | x :: rest => x :: filter (fun y => y <> x) (firstSeen rest)
  end.

(** ** A concrete deployment

    A small closed instance of the collaborators, used to run the handler:
    the world counts the calls made, a signed event records what it was built
    from, and servers are told apart by name. *)

Module Scenario.

Record SignedEvent := {
  draft : EventBuilder;
  origin : ServerName;
  keyID : string;
  originTS : Z;
  version : RoomVersion
}.

(** [strings.SplitN(id, ":", 2)]: the parts before and after the first colon. *)
Fixpoint splitColon (id : string) : option (string * string) :=
  match id with
  | EmptyString => None
  | String c rest =>
    if Ascii.eqb c ":" then Some (EmptyString, rest)
    else match splitColon rest with
         | Some (l, d) => Some (String c l, d)
         | None => None
         end
  end.

(** [gomatrixserverlib.SplitID]: an identifier is SIGIL LOCALPART ":" DOMAIN,
    split at the first colon. *)
Definition splitAtColon (sigil : ascii) (id : string) : error + (string * ServerName) :=
  match id with
  | EmptyString => inl (ErrOther "invalid ID: does not start with the sigil")
  | String c _ =>
    if negb (Ascii.eqb c sigil) then
      inl (ErrOther "invalid ID: does not start with the sigil")
    else match splitColon id with
         | Some (String _ l, d) => inr (l, d)
         | Some (EmptyString, d) => inr (EmptyString, d)
         | None => inl (ErrOther "invalid ID: missing ':'")
         end
  end.

Definition tick {A} (a : A) : nat -> A * nat := fun w => (a, S w).

(** What a remote server proposes as the join event: fields it must not
    control are set to something odd. *)
Definition template (server : ServerName) : EventBuilder :=
  {| Sender := "@mallory:" +:+ server; RoomID := "!elsewhere:" +:+ server;
     Type_ := "m.room.message"; StateKey := Some "@victim:example.org";
     Redacts := "$redacted"; Content_ := "<remote content>";
     Unsigned := "<remote unsigned>"; Linkage := "<prev and auth events>" |}.

Definition theFederation : @FederationClient nat SignedEvent string :=
  {| LookupRoomAlias := fun domain _ =>
       tick (if String.eqb domain "example.org"
             then inr {| dirRoomID := "!abc:example.org";
                         dirServers := ["example.org"] |}
             else inl (HTTPError 404 "not found"));
     MakeJoin := fun server _ _ _ =>
       tick (if String.eqb server "down.org"
             then inl (ErrOther "connection refused")
             else inr {| JoinEvent := template server;
                         mjRoomVersion :=
                           if String.eqb server "old.org" then ""
                           else if String.eqb server "future.org" then "99"
                           else "2" |});
     SendJoin := fun server _ _ =>
       tick (inr {| sjRespState :=
                      if String.eqb server "forged.org" then "forged state"
                      else "state held by " +:+ server |}) |}.

Definition theKeyRing : @KeyRing nat SignedEvent string :=
  {| Check := fun resp _ =>
       tick (if String.eqb (sjRespState resp) "forged state"
             then Some (ErrOther "signature does not verify")
             else None) |}.

Definition theProducer : @RoomserverProducer nat SignedEvent string :=
  {| SendEvents := fun _ _ => tick (inr "$event");
     SendEventWithState := fun _ _ => tick None |}.

Definition theQueryAPI (available : list (RoomVersion * string))
  : @RoomserverQueryAPI nat :=
  {| QueryInvitesForUser := fun roomID _ =>
       tick (inr (if String.eqb roomID "!invited:c.org"
                  then ["@alice:a.org"; "@bob:b.org"; "@carol:a.org"]
                  else []));
     QueryRoomVersionCapabilities := tick (inr available) |}.

Definition theAliasAPI : @RoomserverAliasAPI nat :=
  {| GetRoomIDForAlias := fun alias =>
       tick (inr (if String.eqb alias "#ghost:local.org" then "!ghost:local.org"
                  else "")) |}.

Definition theAccounts : @AccountsDatabase nat :=
  {| GetProfileByLocalpart := fun _ =>
       tick (inr {| DisplayName := "Alice"; AvatarURL := "mxc://local.org/alice" |}) |}.

Definition ext : @Externals nat unit SignedEvent :=
  {| UnmarshalJSONRequest := fun _ => tick (inr (Some ∅));
     ParseTSParam := fun _ => inr 1000;
     SplitID := splitAtColon;
     BuildEvent := fun eb config ts _ =>
       tick (if String.eqb (RoomID eb) "!here:local.org"
             then inr ({| draft := eb; origin := cfgServerName config;
                          keyID := cfgKeyID config; originTS := ts;
                          version := "1" |}, "1")
             else inl ErrRoomNoExists);
     EventFormat := fun v =>
       if String.eqb v "1" || String.eqb v "2" then inr 1
       else if String.eqb v "3" || String.eqb v "4" then inr 2
       else inl (ErrOther "unsupported room version");
     Build := fun eb ts server key _ v =>
       inr {| draft := eb; origin := server; keyID := key; originTS := ts;
              version := v |};
     marshalContent := fun _ => inr "<content>" |}.

Definition config : Config :=
  {| cfgServerName := "local.org"; cfgKeyID := "ed25519:1"; cfgPrivateKey := "<key>" |}.

Definition device : Device := {| UserID := "@alice:local.org" |}.

(** The request of [device], on a server that supports the room versions
    [available]. *)
Definition request (available : list (RoomVersion * string))
  : @joinRoomReq nat unit SignedEvent string :=
  {| req := tt; evTime := 1000; content := ∅; userID := "@alice:local.org";
     cfg := config; federation := theFederation; producer := theProducer;
     queryAPI := theQueryAPI available; aliasAPI := theAliasAPI;
     keyRing := theKeyRing |}.

Definition stable12 : list (RoomVersion * string) := [("1", "stable"); ("2", "stable")].

(** The request on a server with room versions 1 and 2, and on one with
    room version 2 only. *)
Definition r12 := request stable12.
Definition r2 := request [("2", "stable")].

Definition theProfile : Profile :=
  {| DisplayName := "Alice"; AvatarURL := "mxc://local.org/alice" |}.

(** The draft of the join of [device] to [roomID], on the linkage of a
    template, and the event signed from it for a room version. *)
Definition joinDraftOn (linkage : RawJSON) (roomID : string) : EventBuilder :=
  {| Sender := "@alice:local.org"; RoomID := roomID; Type_ := "m.room.member";
     StateKey := Some "@alice:local.org"; Redacts := ""; Content_ := "<content>";
     Unsigned := "{}"; Linkage := linkage |}.

Definition joinDraft : string -> EventBuilder := joinDraftOn "<prev and auth events>".
Definition localDraft : string -> EventBuilder := joinDraftOn "".

Definition signed (roomID : string) (v : RoomVersion) : SignedEvent :=
  {| draft := joinDraft roomID; origin := "local.org"; keyID := "ed25519:1";
     originTS := 1000; version := v |}.

(** The entry point on a target, from the initial world. *)
Definition enter (target : string) : Outcome * nat * list Call :=
  JoinRoomByIDOrAlias ext tt device target config theFederation theProducer
    (theQueryAPI stable12) theAliasAPI theKeyRing theAccounts 0%nat.

End Scenario.

(** ** Further readings of the trace *)

Section Readings.

Context {Event RespState : Type}.

(** Calls of the publication capability that were answered without error. *)
Definition publishedOK (c : @Call Event RespState) : bool :=
  match c with
  | CSendEvents _ _ (inr _) | CSendEventWithState _ _ None => true
  | _ => false
  end.

(** The servers make-join, respectively send-join, was called on, in order. *)
Definition makeJoinTargets (tr : list (@Call Event RespState)) : list ServerName :=
  omap (fun c => match c with CMakeJoin server _ _ _ _ => Some server | _ => None end) tr.

Definition sendJoinTargets (tr : list (@Call Event RespState)) : list ServerName :=
  omap (fun c => match c with CSendJoin server _ _ _ => Some server | _ => None end) tr.

(** Lookups in the local alias directory and in a remote one. *)
Definition isLocalDirectory (c : @Call Event RespState) : bool :=
  match c with CGetRoomIDForAlias _ _ => true | _ => false end.

Definition isRemoteDirectory (c : @Call Event RespState) : bool :=
  match c with CLookupRoomAlias _ _ _ => true | _ => false end.

(** Calls that are no lookup in a directory. *)
Definition notDirectory (c : @Call Event RespState) : Prop :=
  isLocalDirectory c = false /\ isRemoteDirectory c = false.

(** Calls made on behalf of a join proper: the local path and the handshake. *)
Definition isJoinCall (c : @Call Event RespState) : bool :=
  match c with
  | CBuildEvent _ _ _ | CSendEvents _ _ _ | CQueryRoomVersionCapabilities _
  | CMakeJoin _ _ _ _ _ | CBuild _ _ _ | CSendJoin _ _ _ _ | CCheck _ _ _
  | CSendEventWithState _ _ _ => true
  | _ => false
  end.

(** The calls of the publication capability, in order. *)
Definition publications (tr : list (@Call Event RespState))
  : list (@Call Event RespState) :=
  filter (fun c => isPublish c = true) tr.

(** The servers named by the warnings about a failed attempt, in order. *)
Definition warnedServers (tr : list (@Call Event RespState)) : list ServerName :=
  omap (fun c => match c with
                 | CLog LevelWarn _ (Some server) _ => Some server
                 | _ => None
                 end) tr.

(** The response codes the handler itself produces. *)
Definition ownCode (code : Z) : Prop :=
  code = StatusOK \/ code = StatusBadRequest \/ code = StatusNotFound \/
  code = StatusInternalServerError.

End Readings.

(** The content of the membership event as the entry point completes it: the
    body of the request with the three keys written over it. *)
Definition joinContent (content0 : Content) (profile : Profile) : Content :=
  <["avatar_url" := JString (AvatarURL profile)]>
    (<["displayname" := JString (DisplayName profile)]>
       (<["membership" := JString Join]> content0)).

(** ** The key store of the end-to-end encryption API (package storage)

    The counting of one-time keys in [SelectOneTimeKeyCount] and the list of
    algorithms that [InsertAl] stores as one string and [SelectAl] reads
    back.  The SQL statements and [common.WithTransaction] are outside the
    sources at hand; what is embedded is what the functions compute on the
    rows and strings they get. *)

Module Storage.

(** [types.KeyHolder], the fields the counting reads. *)
Record KeyHolder := { Key_algorithm : string; Key_type : string }.

(** A Go [int] of [bits] bits: the value a sum wraps around to. *)
Definition wrapInt (bits x : Z) : Z :=
  (x + 2 ^ (bits - 1)) mod 2 ^ bits - 2 ^ (bits - 1).

(** The loop of [SelectOneTimeKeyCount] over the rows, on the map [m]:
    an algorithm not yet in the map enters it with 0, and a row whose type is
    "one_time_key" adds one to the entry of its algorithm. *)
Fixpoint SelectOneTimeKeyCount_loop (bits : Z) (elems : list KeyHolder)
    (m : gmap string Z) : gmap string Z :=
  match elems with
  | [] => m
  | val :: rest =>
    let m1 := match m !! Key_algorithm val with
              | Some _ => m
              | None => <[Key_algorithm val := 0]> m
              end in
    let m2 := if String.eqb (Key_type val) "one_time_key"
              then <[Key_algorithm val :=
                       wrapInt bits (default 0 (m1 !! Key_algorithm val) + 1)]> m1
              else m1 in
    SelectOneTimeKeyCount_loop bits rest m2
  end.

(** The map [SelectOneTimeKeyCount] returns for the rows it selected:
    the loop, started on [make(map[string]int)]. *)
Definition SelectOneTimeKeyCount_counts (bits : Z) (elems : list KeyHolder)
  : gmap string Z :=
  SelectOneTimeKeyCount_loop bits elems ∅.

(** [strings.Join]. *)
Fixpoint Join (elems : list string) (sep : string) : string :=
  match elems with
  | [] => ""
  | a :: rest =>
    match rest with
    | [] => a
    | _ :: _ => a +:+ sep +:+ Join rest sep
    end
  end.

(** [strings.Split] at a separator of one byte, the only use made of it:
    the pieces between the occurrences of the separator, one more than there
    are occurrences. *)
Fixpoint Split (s : string) (sep : ascii) : list string :=
  match s with
  | EmptyString => [EmptyString]
  | String c rest =>
    if Ascii.eqb c sep then EmptyString :: Split rest sep
    else match Split rest sep with
         | piece :: pieces => String c piece :: pieces
         | [] => [String c EmptyString]
         end
  end.

(** The string [InsertAl] hands to its statement, and the list [SelectAl]
    makes of the string its statement read. *)
Definition InsertAl_joined (al : list string) : string := Join al ",".
Definition SelectAl_split (Supported_algorithm : string) : list string :=
  Split Supported_algorithm ",".

(** Whether a string holds a given byte, and how often. *)
Fixpoint occurrences (sep : ascii) (s : string) : nat :=
  match s with
  | EmptyString => 0%nat
  | String c rest => ((if Ascii.eqb c sep then 1 else 0) + occurrences sep rest)%nat
  end.

(** A row that counts for algorithm [a]: a one-time key of that algorithm. *)
Definition oneTime (a : string) (v : KeyHolder) : Prop :=
  Key_algorithm v = a /\ Key_type v = "one_time_key".

Global Instance oneTime_dec a v : Decision (oneTime a v).
Proof. unfold oneTime. apply _. Defined.

(** The rows of a device with two one-time keys and one device key of one
    algorithm, and a device key of another. *)
Definition someRows : list KeyHolder :=
  [ {| Key_algorithm := "signed_curve25519"; Key_type := "one_time_key" |};
    {| Key_algorithm := "ed25519"; Key_type := "device_key" |};
    {| Key_algorithm := "signed_curve25519"; Key_type := "device_key" |};
    {| Key_algorithm := "signed_curve25519"; Key_type := "one_time_key" |} ].

End Storage.

(** ** Further deployments *)

Module Scenario2.

Import Scenario.

(** A room server whose invite records hold a user ID without a domain. *)
Definition brokenInvites : @RoomserverQueryAPI nat :=
  {| QueryInvitesForUser := fun _ _ =>
       tick (inr ["@alice:a.org"; "@nobody"; "@carol:c.org"]);
     QueryRoomVersionCapabilities := tick (inr stable12) |}.

Definition rBroken : @joinRoomReq nat unit SignedEvent string :=
  {| req := tt; evTime := 1000; content := ∅; userID := "@alice:local.org";
     cfg := config; federation := theFederation; producer := theProducer;
     queryAPI := brokenInvites; aliasAPI := theAliasAPI; keyRing := theKeyRing |}.



End Scenario2.

(** * Properties *)

Section Properties.

Context {W Request Event RespState : Type}.
Variable ext : @Externals W Request Event.

Implicit Types r : @joinRoomReq W Request Event RespState.
Implicit Types tr : list (@Call Event RespState).
Implicit Types w : W.

(** Unfolds the state-passing combinators and splits a run along every
    answer the handler inspects. *)
Ltac run_cases :=
  unfold bind, call, note, log, ret in *;
  repeat (case_match; simplify_eq/=; try done);
  simplify_eq/=.

(** Splits the membership of a call in a trace that is written out. *)
Ltac trace_mem :=
  repeat match goal with
  | H : _ ∈ [] |- _ => by apply elem_of_nil in H
  | H : _ ∈ _ :: _ |- _ => apply elem_of_cons in H as [H|H]
  end;
  simplify_eq/=.

(** ** The draft *)

Lemma writeToBuilder_draft r eb roomID eb' :
  writeToBuilder ext r eb roomID = inr eb' ->
  isJoinDraft ext r roomID eb' /\ Linkage eb' = Linkage eb.
Proof.
  unfold writeToBuilder, SetContent, SetUnsigned, marshalEmptyStruct, isJoinDraft.
  intros H. destruct (marshalContent ext (content r)) as [e|raw] eqn:Hm;
    simplify_eq/=. repeat split; done.
Qed.

Lemma writeToBuilder_inr r eb roomID :
  (exists raw, marshalContent ext (content r) = inr raw) ->
  exists eb', writeToBuilder ext r eb roomID = inr eb'.
Proof.
  intros [raw Hraw]. unfold writeToBuilder, SetContent, SetUnsigned, marshalEmptyStruct.
  rewrite Hraw. eauto.
Qed.

(** The template a remote server sent has no say in the fields of the
    draft: two templates with the same linkage give the same draft. *)
Lemma writeToBuilder_template_irrelevant r eb1 eb2 roomID :
  Linkage eb1 = Linkage eb2 ->
  writeToBuilder ext r eb1 roomID = writeToBuilder ext r eb2 roomID.
Proof.
  intros HL. unfold writeToBuilder, SetContent, SetUnsigned, marshalEmptyStruct.
  destruct (marshalContent ext (content r)); simpl; [done|]. by rewrite HL.
Qed.

Lemma joinRoomUsingServer_finalised r roomID server w res w' tr :
  joinRoomUsingServer ext r roomID server w = (res, w', tr) ->
  Forall (isJoinDraft ext r roomID) (finalised tr).
Proof.
  unfold joinRoomUsingServer. intros H. run_cases;
    repeat (apply Forall_cons; split; [|try apply Forall_nil]);
    try apply Forall_nil;
    match goal with
    | Hw : writeToBuilder _ _ _ _ = inr _ |- _ =>
      apply writeToBuilder_draft in Hw; tauto
    end.
Qed.

Lemma finalised_app tr1 tr2 : finalised (tr1 ++ tr2) = finalised tr1 ++ finalised tr2.
Proof. unfold finalised. apply omap_app. Qed.

Lemma tryServers_finalised r roomID servers lastErr w res w' tr :
  tryServers ext r roomID servers lastErr w = (res, w', tr) ->
  Forall (isJoinDraft ext r roomID) (finalised tr).
Proof.
  revert lastErr w res w' tr.
  induction servers as [|server rest IH]; intros lastErr w res w' tr; simpl.
  - unfold bind, log, ret. intros H. simplify_eq/=. by repeat constructor.
  - unfold bind at 1. intros H.
    destruct (joinRoomUsingServer ext r roomID server w) as [[a w1] t1] eqn:Ha.
    apply joinRoomUsingServer_finalised in Ha.
    destruct a as [err|response].
    + unfold bind, log in H.
      destruct (tryServers ext r roomID rest (Some err) w1) as [[b w2] t2] eqn:Hb.
      apply IH in Hb. simplify_eq/=.
      rewrite finalised_app. apply Forall_app. split; [done|]. simpl. done.
    + unfold ret in H. simplify_eq/=. by rewrite app_nil_r.
Qed.

Lemma joinRoomUsingServers_finalised r roomID servers w res w' tr :
  joinRoomUsingServers ext r roomID servers w = (res, w', tr) ->
  Forall (isJoinDraft ext r roomID) (finalised tr).
Proof.
  unfold joinRoomUsingServers. intros H.
  destruct (writeToBuilder ext r zeroEventBuilder roomID) as [err|eb] eqn:Hw.
  - unfold bind, log, ret in H. simplify_eq/=. by repeat constructor.
  - apply writeToBuilder_draft in Hw as [Hd _].
    unfold bind at 1, call at 1 in H.
    destruct (BuildEvent ext eb (cfg r) (evTime r) (queryAPI r) w) as [built w1].
    destruct built as [err|[event roomVersion]].
    + case_decide.
      * run_cases. by apply Forall_cons.
      * destruct servers as [|server rest].
        -- run_cases. by apply Forall_cons.
        -- destruct (tryServers ext r roomID (server :: rest) None w1)
             as [[b w2] t2] eqn:Hb.
           apply tryServers_finalised in Hb. simplify_eq/=. by apply Forall_cons.
    + run_cases; by apply Forall_cons.
Qed.

(** C8: [writeToBuilder] overwrites the type (with the membership marker),
    the content, the sender, the state key and the room ID of the builder it
    is given, sets the unsigned section to the empty object and clears the
    redaction target, whatever the builder held before (it succeeds as soon
    as the content can be marshalled); and every draft that a join hands over
    to be finalised, on the local path as well as after make-join, is such a
    draft, so that its sender equals its state key, both being the requesting
    user. *)
Theorem join_draft_overwrites_template r roomID :
  (forall eb, (exists raw, marshalContent ext (content r) = inr raw) ->
     exists eb', writeToBuilder ext r eb roomID = inr eb') /\
  (forall eb eb', writeToBuilder ext r eb roomID = inr eb' ->
     isJoinDraft ext r roomID eb') /\
  (forall servers w res w' tr,
     joinRoomUsingServers ext r roomID servers w = (res, w', tr) ->
     forall eb, eb ∈ finalised tr ->
       isJoinDraft ext r roomID eb /\
       StateKey eb = Some (Sender eb) /\ Sender eb = userID r).
Proof.
  split; [|split].
  - intros eb. apply writeToBuilder_inr.
  - intros eb eb' H. by apply writeToBuilder_draft in H as [? _].
  - intros servers w res w' tr H eb Hin.
    apply joinRoomUsingServers_finalised in H.
    rewrite Forall_forall in H. specialize (H eb Hin).
    split; [done|]. destruct H as (_ & _ & HS & HK & _). by rewrite HS, HK.
Qed.

(** ** The handshake with one candidate *)

(** C3: when the trust verification of a send-join response fails during an
    attempt (the [Check] against the key ring answers with an error), the
    attempt returns that error and its trace holds no call of the publication
    capability. *)
Theorem unverified_response_never_published
    r roomID server w res w' tr resp event e :
  joinRoomUsingServer ext r roomID server w = (res, w', tr) ->
  CCheck resp event (Some e) ∈ tr ->
  res = inl e /\ (forall c, c ∈ tr -> isPublish c = false).
Proof.
  unfold joinRoomUsingServer. intros H. run_cases;
    intros Hin; (split; [|intros c Hc]); trace_mem; done.
Qed.

(** Whatever room version an attempt builds, sends or publishes with is the
    effective version of the make-join answer it got. *)
Lemma versionsUsed_effective r roomID server w res w' tr s room u vs resp :
  joinRoomUsingServer ext r roomID server w = (res, w', tr) ->
  CMakeJoin s room u vs (inr resp) ∈ tr ->
  forall v, v ∈ versionsUsed tr -> v = effectiveRoomVersion resp.
Proof.
  unfold joinRoomUsingServer. intros H. run_cases;
    intros Hin v Hv; trace_mem; done.
Qed.

(** The versions offered to the remote server are the locally available
    ones. *)
Lemma makeJoin_offers_available r roomID server w res w' tr s room u vs ans :
  joinRoomUsingServer ext r roomID server w = (res, w', tr) ->
  CMakeJoin s room u vs ans ∈ tr ->
  exists available,
    CQueryRoomVersionCapabilities (inr available) ∈ tr /\ vs = map fst available.
Proof.
  unfold joinRoomUsingServer. intros H. run_cases;
    intros Hin; trace_mem; eexists; (split; [|done]);
    rewrite !elem_of_cons; eauto.
Qed.

(** C7, as the code has it: when the make-join answer leaves the room version
    out, every version the attempt builds, sends or publishes the event with
    is room version 1, whatever the locally available versions are. *)
Theorem omitted_version_defaults_to_v1
    r roomID server w res w' tr s room u vs resp :
  joinRoomUsingServer ext r roomID server w = (res, w', tr) ->
  CMakeJoin s room u vs (inr resp) ∈ tr ->
  mjRoomVersion resp = "" ->
  forall v, v ∈ versionsUsed tr -> v = RoomVersionV1.
Proof.
  intros H Hin Hempty v Hv.
  rewrite (versionsUsed_effective _ _ _ _ _ _ _ _ _ _ _ _ H Hin v Hv).
  unfold effectiveRoomVersion. by rewrite Hempty.
Qed.

(** C1, as the code has it: when the room version of the make-join answer
    has no known event format, the attempt returns the BadRequest response
    (unsupported room version) and no error, after exactly two calls; the
    loop over the candidates then returns that response as the outcome of the
    request, without going on to any further candidate. *)
Theorem unsupported_version_ends_request
    r roomID server rest lastErr w available w1 resp w2 eb e :
  QueryRoomVersionCapabilities (queryAPI r) w = (inr available, w1) ->
  MakeJoin (federation r) server roomID (userID r) (map fst available) w1
    = (inr resp, w2) ->
  writeToBuilder ext r (JoinEvent resp) roomID = inr eb ->
  EventFormat ext (effectiveRoomVersion resp) = inl e ->
  let bad := {| Code := StatusBadRequest;
                JSON := jsonerror.UnsupportedRoomVersion
                  ("Room version '" +:+ effectiveRoomVersion resp
                     +:+ "' is not supported") |} in
  let tr := [CQueryRoomVersionCapabilities (inr available);
             CMakeJoin server roomID (userID r) (map fst available) (inr resp)] in
  joinRoomUsingServer ext r roomID server w = (inr bad, w2, tr) /\
  tryServers ext r roomID (server :: rest) lastErr w = (bad, w2, tr).
Proof.
  intros Hq Hm Hw Hf bad tr.
  assert (Ha : joinRoomUsingServer ext r roomID server w = (inr bad, w2, tr)).
  { unfold joinRoomUsingServer, bind, call, ret. rewrite Hq. simpl.
    rewrite Hm. simpl. rewrite Hw, Hf. done. }
  split; [done|]. simpl. unfold bind at 1. rewrite Ha. unfold ret. done.
Qed.

(** ** The local path and the fallback over the candidates *)

(** A failed run over [servers] ends with [lastErr] holding the error of the
    attempt on the last of them. *)
Lemma allFailed_last r roomID init server w e w' tr e' :
  allFailed ext r roomID (init ++ [server]) w e w' tr e' ->
  exists w0 e0 t0 w1 t1 err,
    allFailed ext r roomID init w e w0 t0 e0 /\
    joinRoomUsingServer ext r roomID server w0 = (inl err, w1, t1) /\
    e' = Some err.
Proof.
  revert w e tr. induction init as [|s init IH]; intros w e tr H; simpl in H.
  - inversion H as [|? ? ? ? err w1 t1 w2 t2 ? Ha Hrest]; subst.
    inversion Hrest; subst.
    exists w, e, [], w', t1, err. split; [constructor|done].
  - inversion H as [|? ? ? ? err w1 t1 w2 t2 ? Ha Hrest]; subst.
    apply IH in Hrest as (w0 & e0 & t0 & w3 & t3 & err' & Hinit & Hlast & ->).
    eexists _, _, _, _, _, _. split; [|split; [exact Hlast|done]].
    econstructor; eauto.
Qed.

(** Every run of the loop is of one of two kinds: some candidate answers
    with a response after all those before it failed, or all fail. *)
Lemma tryServers_cases r roomID servers lastErr w res w' tr :
  tryServers ext r roomID servers lastErr w = (res, w', tr) ->
  (exists pre server post w1 t1 e1 ts,
     servers = pre ++ server :: post /\
     allFailed ext r roomID pre w lastErr w1 t1 e1 /\
     joinRoomUsingServer ext r roomID server w1 = (inr res, w', ts) /\
     tr = t1 ++ ts) \/
  (exists t1 e1,
     allFailed ext r roomID servers w lastErr w' t1 e1 /\
     res = jsonerror.InternalServerError /\
     tr = t1 ++ [CLog LevelError e1 None "failed to join through any server"]).
Proof.
  revert lastErr w res w' tr.
  induction servers as [|server rest IH]; intros lastErr w res w' tr; simpl.
  - unfold bind, log, ret. intros H. simplify_eq/=. right.
    eexists [], _. split; [constructor|done].
  - unfold bind at 1. intros H.
    destruct (joinRoomUsingServer ext r roomID server w) as [[a w1] t1] eqn:Ha.
    destruct a as [err|response].
    + unfold bind, log in H.
      destruct (tryServers ext r roomID rest (Some err) w1) as [[b w2] t2] eqn:Hb.
      simplify_eq/=.
      apply IH in Hb as [(pre & s & post & w3 & t3 & e3 & ts & -> & Hf & Hs & ->)
                        |(t3 & e3 & Hf & -> & ->)].
      * left. exists (server :: pre), s, post, w3. eexists _, _, ts.
        split; [done|]. split; [econstructor; eauto|]. split; [done|].
        by rewrite <-app_assoc.
      * right. eexists _, e3. split; [econstructor; eauto|]. split; [done|].
        by rewrite <-app_assoc.
    + unfold ret in H. simplify_eq/=. left.
      exists [], server, rest, w, [], lastErr, t1.
      split; [done|]. split; [constructor|]. split; [done|].
      by rewrite app_nil_r.
Qed.

(** C6: in the loop over the ordered candidates, when all attempts on the
    candidates [pre] fail and the attempt on the next one, [server], returns
    a response without error, that response is the outcome and the trace
    ends with that attempt, whatever candidates [post] follow: none of them
    is contacted.  When the attempts on all candidates fail, the outcome is
    the generic internal-server-error response, and the last entry of the
    trace is the error log line carrying [lastErr], which for a non-empty
    list is the error of the attempt on the last candidate. *)
Theorem first_success_wins_else_last_error r roomID :
  (forall pre server post lastErr w w1 t1 e1 response w2 ts,
     allFailed ext r roomID pre w lastErr w1 t1 e1 ->
     joinRoomUsingServer ext r roomID server w1 = (inr response, w2, ts) ->
     tryServers ext r roomID (pre ++ server :: post) lastErr w
       = (response, w2, t1 ++ ts)) /\
  (forall servers lastErr w w' t1 e1,
     allFailed ext r roomID servers w lastErr w' t1 e1 ->
     tryServers ext r roomID servers lastErr w
       = (jsonerror.InternalServerError, w',
          t1 ++ [CLog LevelError e1 None "failed to join through any server"]) /\
     (forall init server, servers = init ++ [server] ->
        exists w0 e0 t0 w1 ts err,
          allFailed ext r roomID init w lastErr w0 t0 e0 /\
          joinRoomUsingServer ext r roomID server w0 = (inl err, w1, ts) /\
          e1 = Some err)).
Proof.
  split.
  - intros pre server post lastErr w w1 t1 e1 response w2 ts Hf Hs.
    induction Hf as [w e|s rest w e err w3 t3 w4 t4 e' Ha Hrest IH]; simpl.
    + unfold bind at 1. rewrite Hs. unfold ret. simpl. by rewrite app_nil_r.
    + unfold bind at 1. rewrite Ha. unfold bind, log. rewrite (IH Hs).
      simpl. by rewrite <-app_assoc.
  - intros servers lastErr w w' t1 e1 Hf. split.
    + induction Hf as [w e|s rest w e err w3 t3 w4 t4 e' Ha Hrest IH]; simpl.
      * done.
      * unfold bind at 1. rewrite Ha. unfold bind, log. rewrite IH.
        simpl. by rewrite <-app_assoc.
    + intros init server ->.
      apply allFailed_last in Hf as (w0 & e0 & t0 & w1 & ts & err & Hi & Hl & ->).
      eauto 10.
Qed.

(** When the local path reports the room absent and there are candidates,
    what remains of [joinRoomUsingServers] is the loop over them, started
    with no last error. *)
Lemma joinRoomUsingServers_fallback r roomID server rest eb w w1 :
  writeToBuilder ext r zeroEventBuilder roomID = inr eb ->
  BuildEvent ext eb (cfg r) (evTime r) (queryAPI r) w = (inl ErrRoomNoExists, w1) ->
  joinRoomUsingServers ext r roomID (server :: rest) w
  = let '(res, w', t) := tryServers ext r roomID (server :: rest) None w1 in
    (res, w', CBuildEvent eb (evTime r) (inl ErrRoomNoExists) :: t).
Proof.
  intros Hw Hb. unfold joinRoomUsingServers. rewrite Hw.
  unfold bind at 1, call at 1. rewrite Hb.
  rewrite decide_False by naive_solver.
  by destruct (tryServers ext r roomID (server :: rest) None w1) as [[res w'] t].
Qed.


(** ** Candidate servers *)

Lemma elem_of_firstSeen (l : list ServerName) x : x ∈ firstSeen l <-> x ∈ l.
Proof.
  induction l as [|a l IH]; simpl; [done|].
  rewrite !elem_of_cons, list_elem_of_filter, IH.
  destruct (decide (x = a)); naive_solver.
Qed.

Lemma NoDup_firstSeen (l : list ServerName) : NoDup (firstSeen l).
Proof.
  induction l as [|a l IH]; simpl; [constructor|].
  apply NoDup_cons. split.
  - rewrite list_elem_of_filter. naive_solver.
  - by apply NoDup_filter.
Qed.

Lemma filter_not_elem_of_nil (l : list ServerName) :
  filter (fun d => d ∉ []) l = l.
Proof.
  induction l as [|b m IHm]; [done|].
  rewrite filter_cons_True by apply not_elem_of_nil. by rewrite IHm.
Qed.

(** What was first seen in a prefix stays in front, in the same order. *)
Lemma firstSeen_app (l k : list ServerName) :
  firstSeen (l ++ k) = firstSeen l ++ filter (fun d => d ∉ l) (firstSeen k).
Proof.
  induction l as [|a l IH]; simpl.
  - by rewrite filter_not_elem_of_nil.
  - f_equal. rewrite IH, filter_app. f_equal.
    rewrite list_filter_filter. apply list_filter_iff.
    intros x. rewrite not_elem_of_cons. naive_solver.
Qed.

Lemma seen_insert (sm : gmap ServerName bool) d x :
  seen (<[d := true]> sm) x = true <-> x = d \/ seen sm x = true.
Proof.
  unfold seen. rewrite lookup_insert. case_decide; naive_solver.
Qed.

(** The loop over the inviters, from any state of its two variables in which
    the map marks exactly the servers collected so far. *)
Lemma inviterServers_spec ids doms acc (sm : gmap ServerName bool) :
  Forall2 (fun id d => exists l, SplitID ext "@" id = inr (l, d)) ids doms ->
  (forall d, seen sm d = true <-> d ∈ acc) ->
  exists sm',
    inviterServers ext ids acc sm
      = inr (acc ++ filter (fun d => d ∉ acc) (firstSeen doms), sm') /\
    (forall d, seen sm' d = true <-> d ∈ acc \/ d ∈ doms).
Proof.
  intros Hsplit. revert acc sm.
  induction Hsplit as [|id d ids doms [l Hd] _ IH]; intros acc sm Hinv; simpl.
  - exists sm. rewrite app_nil_r. split; [done|].
    intros d. rewrite Hinv, elem_of_nil. naive_solver.
  - rewrite Hd. destruct (seen sm d) eqn:Hs; simpl.
    + apply Hinv in Hs.
      destruct (IH acc sm Hinv) as (sm' & -> & Hsm'). exists sm'. split.
      * rewrite filter_cons_False by naive_solver.
        rewrite list_filter_filter_l; [done|]. intros x Hx ->. done.
      * intros x. rewrite Hsm', elem_of_cons.
        destruct (decide (x = d)) as [->|]; naive_solver.
    + assert (d ∉ acc) as Hnot.
      { intros Hin. apply Hinv in Hin. congruence. }
      destruct (IH (acc ++ [d]) (<[d := true]> sm)) as (sm' & -> & Hsm').
      { intros x. rewrite seen_insert, Hinv, elem_of_app, list_elem_of_singleton.
        naive_solver. }
      exists sm'. split.
      * rewrite filter_cons_True by done. rewrite <-app_assoc. simpl.
        do 4 f_equal. rewrite list_filter_filter. apply list_filter_iff.
        intros x. rewrite elem_of_app, list_elem_of_singleton. naive_solver.
      * intros x. rewrite Hsm', elem_of_app, list_elem_of_singleton, elem_of_cons.
        naive_solver.
Qed.

(** C2: when every inviter user ID and the room ID split into local part and
    domain, the candidate list built for a join by room ID has no duplicates;
    it consists of the distinct domains of the inviters in first-seen order,
    followed by the domain of the room ID exactly when that domain is neither
    the local server name nor among the domains of the inviters. *)
Theorem candidate_servers_distinct_first_seen r ids doms roomID localpart rd :
  Forall2 (fun id d => exists l, SplitID ext "@" id = inr (l, d)) ids doms ->
  SplitID ext "!" roomID = inr (localpart, rd) ->
  exists servers,
    candidateServers ext r ids roomID = inr servers /\
    NoDup servers /\
    servers = firstSeen doms ++
              (if decide (rd <> cfgServerName (cfg r) /\ rd ∉ doms) then [rd] else []) /\
    (forall d, d ∈ servers <-> d ∈ doms \/ (d = rd /\ rd <> cfgServerName (cfg r))).
Proof.
  intros Hsplit Hroom. unfold candidateServers.
  destruct (inviterServers_spec ids doms [] ∅ Hsplit) as (sm' & -> & Hsm').
  { intros d. unfold seen. rewrite lookup_empty, elem_of_nil. naive_solver. }
  rewrite filter_not_elem_of_nil, Hroom. simpl.
  assert (Hseen : seen sm' rd = true <-> rd ∈ doms).
  { rewrite Hsm', elem_of_nil. naive_solver. }
  destruct (String.eqb_spec rd (cfgServerName (cfg r))) as [Heq|Hne]; simpl.
  - rewrite decide_False by naive_solver. rewrite app_nil_r.
    eexists. split; [done|]. split; [apply NoDup_firstSeen|]. split; [done|].
    intros d. rewrite elem_of_firstSeen. naive_solver.
  - destruct (seen sm' rd) eqn:Hs; simpl.
    + rewrite decide_False by naive_solver. rewrite app_nil_r.
      eexists. split; [done|]. split; [apply NoDup_firstSeen|]. split; [done|].
      intros d. rewrite elem_of_firstSeen.
      assert (rd ∈ doms) by naive_solver. naive_solver.
    + assert (rd ∉ doms) as Hnot.
      { intros Hin. apply Hseen in Hin. congruence. }
      rewrite decide_True by done.
      eexists. split; [done|]. split; [|split; [done|]].
      * apply NoDup_app. split; [apply NoDup_firstSeen|].
        split; [|apply NoDup_singleton].
        intros x Hx ->%list_elem_of_singleton. apply Hnot.
        by apply elem_of_firstSeen.
      * intros d. rewrite elem_of_app, elem_of_firstSeen, list_elem_of_singleton.
        naive_solver.
Qed.

(** ** Aliases and the dispatcher *)

(** An attempt starts by asking for the locally available room versions and,
    once it has them, calls make-join on the candidate; a response it
    returns is never NotFound. *)
Lemma joinRoomUsingServer_shape r roomID server w res w' tr :
  joinRoomUsingServer ext r roomID server w = (res, w', tr) ->
  (exists ans rest,
     tr = CQueryRoomVersionCapabilities ans :: rest /\
     forall available, ans = inr available ->
       exists made rest',
         rest = CMakeJoin server roomID (userID r) (map fst available) made :: rest') /\
  (forall response, res = inr response -> Code response <> StatusNotFound).
Proof.
  unfold joinRoomUsingServer. intros H. run_cases;
    (split; [eexists _, _; split; [done|]; intros; simplify_eq; eauto
            |intros; simplify_eq; done]).
Qed.

Lemma length_pos_nonempty (s : string) :
  s <> "" -> (0 <? String.length s)%nat = true.
Proof. destruct s; [done|]. intros _. done. Qed.

(** C10: when the domain of an alias is the local server name and the alias
    resolves to a non-empty room ID, [joinRoomByAlias] goes on as
    [joinRoomUsingServers] does on the one-element candidate list that holds
    the local server name.  So, when the local path reports the room absent,
    the loop runs the handshake on the local server itself: it asks for the
    available room versions and, having got them, calls make-join on the
    local server name; the outcome is never NotFound. *)
Theorem local_alias_candidate_is_own_server
    r roomAlias w localpart domain roomID w1 :
  SplitID ext "#" roomAlias = inr (localpart, domain) ->
  domain = cfgServerName (cfg r) ->
  GetRoomIDForAlias (aliasAPI r) roomAlias w = (inr roomID, w1) ->
  roomID <> "" ->
  (exists res w' t,
     joinRoomUsingServers ext r roomID [cfgServerName (cfg r)] w1 = (res, w', t) /\
     joinRoomByAlias ext r roomAlias w
       = (res, w', CGetRoomIDForAlias roomAlias (inr roomID) :: t)) /\
  (forall eb w2,
     writeToBuilder ext r zeroEventBuilder roomID = inr eb ->
     BuildEvent ext eb (cfg r) (evTime r) (queryAPI r) w1 = (inl ErrRoomNoExists, w2) ->
     exists res w' t,
       joinRoomByAlias ext r roomAlias w
         = (res, w', CGetRoomIDForAlias roomAlias (inr roomID)
                       :: CBuildEvent eb (evTime r) (inl ErrRoomNoExists) :: t) /\
       tryServers ext r roomID [cfgServerName (cfg r)] None w2 = (res, w', t) /\
       Code res <> StatusNotFound /\
       exists ans rest,
         t = CQueryRoomVersionCapabilities ans :: rest /\
         forall available, ans = inr available ->
           exists made rest',
             rest = CMakeJoin (cfgServerName (cfg r)) roomID (userID r)
                      (map fst available) made :: rest').
Proof.
  intros Hsplit -> Hget Hne.
  assert (Halias : forall res w' t,
    joinRoomUsingServers ext r roomID [cfgServerName (cfg r)] w1 = (res, w', t) ->
    joinRoomByAlias ext r roomAlias w
      = (res, w', CGetRoomIDForAlias roomAlias (inr roomID) :: t)).
  { intros res w' t Hrun. unfold joinRoomByAlias. rewrite Hsplit, String.eqb_refl.
    unfold bind, call. rewrite Hget, (length_pos_nonempty _ Hne), Hrun. done. }
  split.
  - destruct (joinRoomUsingServers ext r roomID [cfgServerName (cfg r)] w1)
      as [[res w'] t] eqn:Hrun.
    exists res, w', t. split; [done|]. by apply Halias.
  - intros eb w2 Hw Hb.
    destruct (tryServers ext r roomID [cfgServerName (cfg r)] None w2)
      as [[res w'] t] eqn:Hloop.
    exists res, w', t. split; [|split; [done|]].
    + apply Halias. unfold joinRoomUsingServers. rewrite Hw.
      unfold bind, call. rewrite Hb. rewrite decide_False by naive_solver.
      by rewrite Hloop.
    + simpl in Hloop. unfold bind at 1 in Hloop.
      destruct (joinRoomUsingServer ext r roomID (cfgServerName (cfg r)) w2)
        as [[a w3] t3] eqn:Ha.
      apply joinRoomUsingServer_shape in Ha as [(ans & rest & -> & Hmj) Hcode].
      destruct a as [err|response].
      * unfold bind, log, ret in Hloop. simplify_eq/=. split; [done|].
        eexists _, _. split; [done|]. intros available ->.
        destruct (Hmj _ eq_refl) as (made & rest' & ->). eauto.
      * unfold ret in Hloop. simplify_eq/=. split; [by apply Hcode|].
        eexists _, _. split; [done|]. intros available ->.
        destruct (Hmj _ eq_refl) as (made & rest' & ->). eauto.
Qed.

Lemma HasPrefix_sigil (c sigil : ascii) (rest : string) :
  HasPrefix (String c rest) (String sigil "") = bool_decide (c = sigil).
Proof.
  unfold HasPrefix. simpl. destruct (ascii_dec sigil c) as [->|Hne].
  - rewrite bool_decide_true by done. by destruct rest.
  - rewrite bool_decide_false by congruence. done.
Qed.

(** The first rune of a string that starts with an ASCII character is that
    character. *)
Lemma first_rune_ascii (c : ascii) (rest : string) :
  byte_of c < 128 -> runeToString (decodeFirst c rest) = String c "".
Proof.
  intros Hc. unfold decodeFirst. rewrite (proj2 (Z.ltb_lt _ _) Hc).
  unfold runeToString, inRange.
  assert (0 <= byte_of c) by (unfold byte_of; lia).
  rewrite (proj2 (Z.leb_le 0 _)) by done.
  rewrite (proj2 (Z.leb_le _ 127)) by lia. simpl.
  unfold str1, char_of, byte_of. by rewrite N2Z.id, ascii_N_embedding.
Qed.

(** Targets that have a leading character: once the body, the timestamp and
    the profile of the user have been obtained, the dispatcher answers a
    target whose leading character is neither '!' nor '#' with a BadRequest
    whose reason names the first rune of the target (the leading character
    itself when it is ASCII), and it answers an alias (leading '#') that
    [SplitID] cannot split into local part and domain with a BadRequest as
    well. *)
Lemma bad_target_is_bad_request
    (request : Request) (device : Device) (config : Config)
    (fed : @FederationClient W Event RespState)
    (prod : @RoomserverProducer W Event RespState)
    (query : @RoomserverQueryAPI W) (alias : @RoomserverAliasAPI W)
    (ring : @KeyRing W Event RespState) (accountDB : @AccountsDatabase W)
    w content0 w1 ts localpart dom profile w2 :
  UnmarshalJSONRequest ext request w = (inr (Some content0), w1) ->
  ParseTSParam ext request = inr ts ->
  SplitID ext "@" (UserID device) = inr (localpart, dom) ->
  GetProfileByLocalpart accountDB localpart w1 = (inr profile, w2) ->
  let pre := [CUnmarshalJSONRequest (inr (Some content0));
              CGetProfileByLocalpart localpart (inr profile)] in
  (forall c rest, c <> "!"%char -> c <> "#"%char ->
     JoinRoomByIDOrAlias ext request device (String c rest) config fed prod
       query alias ring accountDB w
     = (Returned {| Code := StatusBadRequest;
                    JSON := jsonerror.BadJSON
                      ("Invalid first character '"
                         +:+ runeToString (decodeFirst c rest)
                         +:+ "' for room ID or alias") |}, w2, pre) /\
     (byte_of c < 128 -> runeToString (decodeFirst c rest) = String c "")) /\
  (forall rest err,
     SplitID ext "#" (String "#" rest) = inl err ->
     JoinRoomByIDOrAlias ext request device (String "#" rest) config fed prod
       query alias ring accountDB w
     = (Returned {| Code := StatusBadRequest;
                    JSON := jsonerror.BadJSON
                      "Room alias must be in the form '#localpart:domain'" |},
        w2, pre)).
Proof.
  intros Hbody Hts Huser Hprofile pre. split.
  - intros c rest Hid Halias. split; [|apply first_rune_ascii].
    unfold JoinRoomByIDOrAlias, bind, call, ret.
    rewrite Hbody, Hts, Huser, Hprofile, !HasPrefix_sigil.
    rewrite !bool_decide_false by done. done.
  - intros rest err Hsplit.
    unfold JoinRoomByIDOrAlias, bind, call, ret.
    rewrite Hbody, Hts, Huser, Hprofile, !HasPrefix_sigil.
    rewrite bool_decide_false by done. rewrite bool_decide_true by done.
    unfold joinRoomByAlias. rewrite Hsplit. done.
Qed.

(** The empty target, in any environment: once the body, the timestamp and
    the profile of the user have been obtained, the entry point panics. *)
Lemma empty_target_panics_anywhere
    (request : Request) (device : Device) (config : Config)
    (fed : @FederationClient W Event RespState)
    (prod : @RoomserverProducer W Event RespState)
    (query : @RoomserverQueryAPI W) (alias : @RoomserverAliasAPI W)
    (ring : @KeyRing W Event RespState) (accountDB : @AccountsDatabase W)
    w content0 w1 ts localpart dom profile w2 :
  UnmarshalJSONRequest ext request w = (inr (Some content0), w1) ->
  ParseTSParam ext request = inr ts ->
  SplitID ext "@" (UserID device) = inr (localpart, dom) ->
  GetProfileByLocalpart accountDB localpart w1 = (inr profile, w2) ->
  JoinRoomByIDOrAlias ext request device "" config fed prod query alias ring
    accountDB w
  = (Panicked "index out of range [0] with length 0", w2,
     [CUnmarshalJSONRequest (inr (Some content0));
      CGetProfileByLocalpart localpart (inr profile)]).
Proof.
  intros Hbody Hts Huser Hprofile.
  unfold JoinRoomByIDOrAlias, bind, call, ret.
  rewrite Hbody, Hts, Huser, Hprofile. done.
Qed.

End Properties.

(** * The properties on the concrete deployment *)

Import Scenario.

(** C9: on the empty target, with a well-formed body, timestamp and user, the
    entry point reaches its last branch and panics on the index into the
    empty rune slice; it returns no response. *)
Theorem empty_target_panics :
  Scenario.enter ""
  = (Panicked "index out of range [0] with length 0", 2%nat,
     [CUnmarshalJSONRequest (inr (Some ∅));
      CGetProfileByLocalpart "alice" (inr theProfile)]).
Proof. vm_compute. reflexivity. Qed.

(** C5: the empty target starts with neither '!' nor '#', yet the dispatcher
    does not answer it with a BadRequest: the index into its empty rune slice
    panics before any response is built.  (Targets that have a leading
    character are answered as claimed, see [bad_target_is_bad_request].) *)
Theorem empty_target_is_not_bad_request :
  HasPrefix "" "!" = false /\
  HasPrefix "" "#" = false /\
  forall res, (enter "").1.1 <> Returned res.
Proof.
  split; [reflexivity|]. split; [reflexivity|].
  intros res. vm_compute. discriminate.
Qed.

(** C1 does not hold as stated: with the candidates future.org, whose
    make-join answer names the unknown room version 99, and good.org, the
    request ends with the BadRequest of the first candidate and good.org is
    never contacted. *)
Lemma unsupported_version_stops_loop_counterexample :
  let '(res, _, tr) :=
    joinRoomUsingServers Scenario.ext r12 "!room:future.org"
      ["future.org"; "good.org"] 0%nat in
  res = {| Code := StatusBadRequest;
           JSON := jsonerror.UnsupportedRoomVersion
                     "Room version '99' is not supported" |} /\
  contacted tr = ["future.org"] /\
  ~ "good.org" ∈ contacted tr.
Proof.
  vm_compute. split; [reflexivity|]. split; [reflexivity|].
  intros H. inversion H as [|? ? ? H']; subst. inversion H'.
Qed.

Lemma unsupported_version_ends_request_witness :
  tryServers Scenario.ext r12 "!room:future.org" ["future.org"; "good.org"] None 0%nat
  = ({| Code := StatusBadRequest;
        JSON := jsonerror.UnsupportedRoomVersion
                  "Room version '99' is not supported" |}, 2%nat,
     [CQueryRoomVersionCapabilities (inr Scenario.stable12);
      CMakeJoin "future.org" "!room:future.org" "@alice:local.org" ["1"; "2"]
        (inr {| JoinEvent := Scenario.template "future.org";
                mjRoomVersion := "99" |})]).
Proof.
  refine (proj2 (unsupported_version_ends_request Scenario.ext r12
    "!room:future.org" "future.org" ["good.org"] None 0%nat Scenario.stable12
    1%nat {| JoinEvent := Scenario.template "future.org"; mjRoomVersion := "99" |}
    2%nat (Scenario.joinDraft "!room:future.org")
    (ErrOther "unsupported room version") _ _ _ _)); reflexivity.
Defined.

(** C7 does not hold as stated: on a server whose only available room
    version is 2, an attempt on old.org, whose make-join answer leaves the
    version out, builds, sends and publishes the event with version 1, which
    is not among the versions it offered. *)
Lemma omitted_version_not_supported_counterexample :
  let '(res, _, tr) :=
    joinRoomUsingServer Scenario.ext r2 "!room:old.org" "old.org" 0%nat in
  tr !! 0%nat = Some (CQueryRoomVersionCapabilities (inr [("2", "stable")])) /\
  tr !! 1%nat = Some (CMakeJoin "old.org" "!room:old.org" "@alice:local.org" ["2"]
                        (inr {| JoinEvent := Scenario.template "old.org";
                                mjRoomVersion := "" |})) /\
  res = inr (roomIDResponse "!room:old.org") /\
  versionsUsed tr = ["1"; "1"; "1"] /\
  ~ "1" ∈ ["2"].
Proof.
  vm_compute. repeat (split; [reflexivity|]).
  intros H. inversion H as [|? ? ? H']; subst. inversion H'.
Qed.

Lemma omitted_version_defaults_to_v1_witness :
  let tr := (joinRoomUsingServer Scenario.ext r2 "!room:old.org" "old.org" 0%nat).2 in
  mjRoomVersion {| JoinEvent := Scenario.template "old.org"; mjRoomVersion := "" |} = "" /\
  versionsUsed tr = ["1"; "1"; "1"] /\
  Forall (fun v => v = RoomVersionV1) (versionsUsed tr).
Proof.
  split; [reflexivity|]. split; [vm_compute; reflexivity|].
  apply Forall_forall.
  destruct (joinRoomUsingServer Scenario.ext r2 "!room:old.org" "old.org" 0%nat)
    as [[res w'] tr] eqn:Hrun.
  apply (omitted_version_defaults_to_v1 Scenario.ext r2 "!room:old.org" "old.org"
           0%nat res w' tr "old.org" "!room:old.org" "@alice:local.org" ["2"]
           {| JoinEvent := Scenario.template "old.org"; mjRoomVersion := "" |} Hrun);
    [|reflexivity].
  vm_compute in Hrun. injection Hrun as <- <- <-.
  apply list_elem_of_further, list_elem_of_here.
Defined.

Lemma candidate_servers_distinct_first_seen_witness :
  candidateServers Scenario.ext r12
    ["@alice:a.org"; "@bob:b.org"; "@carol:a.org"] "!invited:c.org"
  = inr ["a.org"; "b.org"; "c.org"] /\
  NoDup ["a.org"; "b.org"; "c.org"].
Proof.
  destruct (candidate_servers_distinct_first_seen Scenario.ext r12
              ["@alice:a.org"; "@bob:b.org"; "@carol:a.org"]
              ["a.org"; "b.org"; "a.org"] "!invited:c.org" "invited" "c.org")
    as (servers & Hc & Hnd & _ & _).
  - repeat constructor; eexists; reflexivity.
  - reflexivity.
  - vm_compute in Hc. injection Hc as <-. split; [reflexivity|exact Hnd].
Defined.

Lemma unverified_response_never_published_witness :
  let '(res, _, tr) :=
    joinRoomUsingServer Scenario.ext r12 "!room:forged.org" "forged.org" 0%nat in
  CCheck {| sjRespState := "forged state" |} (Scenario.signed "!room:forged.org" "2")
    (Some (ErrOther "signature does not verify")) ∈ tr /\
  res = inl (ErrOther "signature does not verify") /\
  Forall (fun c => isPublish c = false) tr.
Proof.
  destruct (joinRoomUsingServer Scenario.ext r12 "!room:forged.org" "forged.org" 0%nat)
    as [[res w'] tr] eqn:Hrun.
  assert (Hin : CCheck {| sjRespState := "forged state" |}
                  (Scenario.signed "!room:forged.org" "2")
                  (Some (ErrOther "signature does not verify")) ∈ tr).
  { vm_compute in Hrun. injection Hrun as <- <- <-.
    do 4 apply list_elem_of_further. apply list_elem_of_here. }
  split; [exact Hin|].
  destruct (unverified_response_never_published Scenario.ext r12 "!room:forged.org"
              "forged.org" 0%nat res w' tr _ _ _ Hrun Hin) as [Hres Hpub].
  split; [exact Hres|]. apply Forall_forall. exact Hpub.
Defined.


Lemma bad_target_is_bad_request_witness :
  enter "@not-a-room-or-alias"
  = (Returned {| Code := StatusBadRequest;
                 JSON := jsonerror.BadJSON
                   "Invalid first character '@' for room ID or alias" |},
     2%nat,
     [CUnmarshalJSONRequest (inr (Some ∅)); CGetProfileByLocalpart "alice" (inr theProfile)]) /\
  enter "#no-colon"
  = (Returned {| Code := StatusBadRequest;
                 JSON := jsonerror.BadJSON
                   "Room alias must be in the form '#localpart:domain'" |},
     2%nat,
     [CUnmarshalJSONRequest (inr (Some ∅)); CGetProfileByLocalpart "alice" (inr theProfile)]).
Proof.
  destruct (bad_target_is_bad_request Scenario.ext tt device config theFederation
              theProducer (theQueryAPI stable12) theAliasAPI theKeyRing theAccounts
              0%nat ∅ 1%nat 1000 "alice" "local.org" theProfile 2%nat
              eq_refl eq_refl eq_refl eq_refl) as [Hsigil Halias].
  split.
  - destruct (Hsigil "@"%char "not-a-room-or-alias") as [Hrun _];
      [discriminate|discriminate|]. exact Hrun.
  - exact (Halias "no-colon" (ErrOther "invalid ID: missing ':'") eq_refl).
Defined.

Lemma first_success_wins_else_last_error_witness :
  (let '(res, _, tr) :=
     tryServers Scenario.ext r12 "!room:x.org"
       (["down.org"; "forged.org"] ++ "good.org" :: ["other.org"]) None 0%nat in
   res = roomIDResponse "!room:x.org" /\
   contacted tr = ["down.org"; "forged.org"; "forged.org"; "good.org"; "good.org"]) /\
  (let '(res, _, tr) :=
     tryServers Scenario.ext r12 "!room:x.org" ["down.org"; "forged.org"] None 0%nat in
   res = jsonerror.InternalServerError /\
   last tr = Some (CLog LevelError (Some (ErrOther "signature does not verify")) None
                     "failed to join through any server")).
Proof.
  destruct (first_success_wins_else_last_error Scenario.ext r12 "!room:x.org")
    as [Hfirst Hnone].
  epose proof (allFailed_cons Scenario.ext r12 "!room:x.org" "down.org" ["forged.org"]
                 0%nat None _ _ _ _ _ _ eq_refl
                 (allFailed_cons Scenario.ext r12 "!room:x.org" "forged.org" []
                    _ _ _ _ _ _ _ _ eq_refl
                    (allFailed_nil Scenario.ext r12 "!room:x.org" _ _))) as Hfail.
  split.
  - pose proof (Hfirst _ "good.org" ["other.org"] _ _ _ _ _ _ _ _ Hfail eq_refl)
      as Hrun.
    match type of Hrun with
    | ?run = _ =>
      change (let '(res, _, tr) := run in
              res = roomIDResponse "!room:x.org" /\
              contacted tr
              = ["down.org"; "forged.org"; "forged.org"; "good.org"; "good.org"])
    end.
    rewrite Hrun. vm_compute. split; reflexivity.
  - destruct (Hnone _ _ _ _ _ _ Hfail) as [Hrun _].
    match type of Hrun with
    | ?run = _ =>
      change (let '(res, _, tr) := run in
              res = jsonerror.InternalServerError /\
              last tr
              = Some (CLog LevelError (Some (ErrOther "signature does not verify"))
                        None "failed to join through any server"))
    end.
    rewrite Hrun. vm_compute. split; reflexivity.
Defined.

Lemma join_draft_overwrites_template_witness :
  writeToBuilder Scenario.ext r12 (template "example.org") "!abc:example.org"
    = inr (joinDraft "!abc:example.org") /\
  isJoinDraft Scenario.ext r12 "!abc:example.org" (joinDraft "!abc:example.org") /\
  Forall (fun eb => StateKey eb = Some (Sender eb) /\ Sender eb = "@alice:local.org")
    (finalised (joinRoomUsingServers Scenario.ext r12 "!abc:example.org"
                  ["example.org"] 0%nat).2).
Proof.
  destruct (join_draft_overwrites_template Scenario.ext r12 "!abc:example.org")
    as (_ & Hdraft & Hruns).
  split; [reflexivity|]. split.
  - apply (Hdraft (template "example.org")). reflexivity.
  - apply Forall_forall. intros eb Hin.
    destruct (joinRoomUsingServers Scenario.ext r12 "!abc:example.org"
                ["example.org"] 0%nat) as [[res w'] tr] eqn:Hrun.
    destruct (Hruns _ _ _ _ _ Hrun eb Hin) as (_ & Hkey & Hsender).
    split; [exact Hkey|exact Hsender].
Defined.

Lemma local_alias_candidate_is_own_server_witness :
  let '(res, _, tr) := joinRoomByAlias Scenario.ext r12 "#ghost:local.org" 0%nat in
  Code res <> StatusNotFound /\
  contacted tr = ["local.org"; "local.org"].
Proof.
  destruct (local_alias_candidate_is_own_server Scenario.ext r12 "#ghost:local.org"
              0%nat "ghost" "local.org" "!ghost:local.org" 1%nat
              eq_refl eq_refl eq_refl) as [_ Habsent]; [discriminate|].
  destruct (Habsent (localDraft "!ghost:local.org") 2%nat eq_refl eq_refl)
    as (res & w' & t & Hrun & Hloop & Hcode & _).
  rewrite Hrun. split; [exact Hcode|].
  vm_compute in Hloop. injection Hloop as <- <- <-. reflexivity.
Defined.

(** * Further properties of the handler *)

Section MoreProperties.

Context {W Request Event RespState : Type}.
Variable ext : @Externals W Request Event.

Implicit Types r : @joinRoomReq W Request Event RespState.
Implicit Types tr : list (@Call Event RespState).
Implicit Types w : W.

Ltac split_run :=
  unfold bind, call, note, log, ret in *;
  repeat (case_match; simplify_eq/=; try done);
  simplify_eq/=.

Ltac split_mem :=
  repeat match goal with
  | H : _ ∈ [] |- _ => by apply elem_of_nil in H
  | H : _ ∈ _ :: _ |- _ => apply elem_of_cons in H as [H|H]
  end;
  simplify_eq/=.

(** ** One attempt *)

(** X1: an attempt that ends in an error has not called the publication
    capability: when the loop moves on to the next candidate, nothing of the
    failed attempt has been published. *)
Theorem failed_attempt_publishes_nothing r roomID server w err w' tr :
  joinRoomUsingServer ext r roomID server w = (inl err, w', tr) ->
  forall c, c ∈ tr -> isPublish c = false.
Proof.
  unfold joinRoomUsingServer. intros H. split_run; intros c Hc; split_mem; done.
Qed.

(** X2: whatever an attempt publishes is the event it built from its own
    draft, written over the template of the make-join answer, under the
    effective room version of that answer, and sent to the candidate with
    send-join; it is published headered with that version and together with
    the room state of the send-join answer.  The calls come in this order:
    version query, make-join, build, send-join, the check of the send-join
    answer against the key ring, which passed, and only then the
    publication, followed by nothing but the log line of its failure. *)
Theorem published_is_sent_and_verified r roomID server w res w' tr state hev ans :
  joinRoomUsingServer ext r roomID server w = (res, w', tr) ->
  CSendEventWithState state hev ans ∈ tr ->
  exists available respMakeJoin eb event respSendJoin,
    let roomVersion := effectiveRoomVersion respMakeJoin in
    writeToBuilder ext r (JoinEvent respMakeJoin) roomID = inr eb /\
    Build ext eb (evTime r) (cfgServerName (cfg r)) (cfgKeyID (cfg r))
      (cfgPrivateKey (cfg r)) roomVersion = inr event /\
    hev = Headered event roomVersion /\
    state = sjRespState respSendJoin /\
    tr = [CQueryRoomVersionCapabilities (inr available);
          CMakeJoin server roomID (userID r) (map fst available) (inr respMakeJoin);
          CBuild eb roomVersion (inr event);
          CSendJoin server event roomVersion (inr respSendJoin);
          CCheck respSendJoin event None;
          CSendEventWithState state hev ans]
         ++ match ans with
            | None => []
            | Some err =>
              [CLog LevelError (Some err) None "gomatrixserverlib.RespState failed"]
            end.
Proof.
  unfold joinRoomUsingServer. intros H. split_run; intros Hin; split_mem;
    eexists _, _, _, _, _; simpl; repeat split; eauto.
Qed.

Lemma publishedOK_isPublish (c : @Call Event RespState) :
  publishedOK c = true -> isPublish c = true.
Proof. destruct c as [| | | | | |? ? []| | | | | |? ? []|]; done. Qed.

Lemma publications_app tr1 tr2 :
  publications (tr1 ++ tr2) = publications tr1 ++ publications tr2.
Proof. apply filter_app. Qed.

Lemma publications_nil_iff tr :
  publications tr = [] <-> forall c, c ∈ tr -> isPublish c = false.
Proof.
  unfold publications. induction tr as [|c tr IH]; simpl.
  - split; [intros _ c Hc; by apply elem_of_nil in Hc|done].
  - rewrite filter_cons. destruct (isPublish c) eqn:Hc.
    + rewrite decide_True by done. split; [done|].
      intros H. specialize (H c (list_elem_of_here _ _)). congruence.
    + rewrite decide_False by done. rewrite IH. split.
      * intros H c' [->|Hin]%elem_of_cons; eauto.
      * intros H c' Hin. apply H. by apply list_elem_of_further.
Qed.

(** The publications of one attempt, by its result. *)
Lemma attempt_publications r roomID server w res w' tr :
  joinRoomUsingServer ext r roomID server w = (res, w', tr) ->
  match res with
  | inl _ => publications tr = []
  | inr response =>
    ownCode (Code response) /\ Code response <> StatusNotFound /\
    (length (publications tr) <= 1)%nat /\
    (Code response = StatusOK ->
       response = roomIDResponse roomID /\
       exists c, c ∈ tr /\ publishedOK c = true) /\
    (Code response <> StatusOK -> forall c, c ∈ tr -> publishedOK c = false)
  end.
Proof.
  unfold joinRoomUsingServer, ownCode. intros H. split_run;
    (split; [auto|]); (split; [done|]); (split; [lia|]); split;
    intros Hcode; try done.
  - intros c Hc. split_mem; done.
  - intros c Hc. split_mem; done.
  - intros c Hc. split_mem; done.
  - split; [done|]. eexists.
    split; [do 5 apply list_elem_of_further; apply list_elem_of_here|done].
Qed.

(** The publications of the loop over the candidates. *)
Lemma tryServers_publications r roomID servers lastErr w res w' tr :
  tryServers ext r roomID servers lastErr w = (res, w', tr) ->
  ownCode (Code res) /\ Code res <> StatusNotFound /\
  (length (publications tr) <= 1)%nat /\
  (Code res = StatusOK ->
     res = roomIDResponse roomID /\ exists c, c ∈ tr /\ publishedOK c = true) /\
  (Code res <> StatusOK -> forall c, c ∈ tr -> publishedOK c = false).
Proof.
  revert lastErr w res w' tr.
  induction servers as [|server rest IH]; intros lastErr w res w' tr; simpl.
  - unfold bind, log, ret, ownCode. intros H. simplify_eq/=.
    split; [auto|]. split; [done|]. split; [lia|]. split; [done|].
    intros _ c Hc. split_mem. done.
  - unfold bind at 1. intros H.
    destruct (joinRoomUsingServer ext r roomID server w) as [[a w1] t1] eqn:Ha.
    apply attempt_publications in Ha. destruct a as [err|response].
    + unfold bind, log in H.
      destruct (tryServers ext r roomID rest (Some err) w1) as [[b w2] t2] eqn:Hb.
      apply IH in Hb as (Hown & Hnf & Hlen & Hok & Hno). simplify_eq/=.
      split; [done|]. split; [done|]. split.
      { rewrite publications_app, Ha. simpl. unfold publications at 1.
        rewrite filter_cons_False by done. exact Hlen. }
      split.
      * intros Hcode. destruct (Hok Hcode) as [-> (c & Hc & Hpub)].
        split; [done|]. exists c. split; [|done].
        apply elem_of_app. right. by apply list_elem_of_further.
      * intros Hcode c [Hc|Hc]%elem_of_app.
        -- rewrite publications_nil_iff in Ha. specialize (Ha c Hc).
           destruct (publishedOK c) eqn:Hp; [|done].
           apply publishedOK_isPublish in Hp. congruence.
        -- apply elem_of_cons in Hc as [->|Hc]; [done|]. by apply Hno.
    + unfold ret in H. simplify_eq/=. rewrite app_nil_r. exact Ha.
Qed.

(** X3: a request handled by [joinRoomUsingServers] calls the publication
    capability at most once; its response is 200 exactly when a publication
    call was answered without error, and a 200 response carries the room ID
    the join was made for. *)
Theorem at_most_one_publication r roomID servers w res w' tr :
  joinRoomUsingServers ext r roomID servers w = (res, w', tr) ->
  (length (publications tr) <= 1)%nat /\
  (Code res = StatusOK <-> exists c, c ∈ tr /\ publishedOK c = true) /\
  (Code res = StatusOK -> res = roomIDResponse roomID).
Proof.
  intros H.
  assert (Hall : (length (publications tr) <= 1)%nat /\
    (Code res = StatusOK ->
       res = roomIDResponse roomID /\ exists c, c ∈ tr /\ publishedOK c = true) /\
    (Code res <> StatusOK -> forall c, c ∈ tr -> publishedOK c = false)).
  { unfold joinRoomUsingServers in H.
    destruct (writeToBuilder ext r zeroEventBuilder roomID) as [err|eb].
    { unfold bind, log, ret in H. simplify_eq/=. split; [lia|]. split; [done|].
      intros _ c Hc. split_mem. done. }
    unfold bind at 1, call at 1 in H.
    destruct (BuildEvent ext eb (cfg r) (evTime r) (queryAPI r) w) as [built w1].
    destruct built as [err|[event roomVersion]].
    - case_decide.
      + split_run. split; [lia|]. split; [done|]. intros _ c Hc. split_mem; done.
      + destruct servers as [|server rest].
        * split_run. split; [lia|]. split; [done|]. intros _ c Hc. split_mem; done.
        * destruct (tryServers ext r roomID (server :: rest) None w1)
            as [[b w2] t2] eqn:Hb.
          apply tryServers_publications in Hb as (_ & _ & Hlen & Hok & Hno).
          simplify_eq/=. split.
          { unfold publications. rewrite filter_cons_False by done. exact Hlen. }
          split.
          -- intros Hcode. destruct (Hok Hcode) as [-> (c & Hc & Hpub)].
             split; [done|]. exists c. split; [|done]. by apply list_elem_of_further.
          -- intros Hcode c [->|Hc]%elem_of_cons; [done|]. by apply Hno.
    - split_run.
      + split; [unfold publications; rewrite ?filter_cons, ?filter_nil; simpl; lia|].
        split; [done|]. intros _ c Hc. split_mem; done.
      + split; [unfold publications; rewrite ?filter_cons, ?filter_nil; simpl; lia|].
        split; [|done]. intros _. split; [done|].
        eexists. split; [apply list_elem_of_further, list_elem_of_here|done]. }
  destruct Hall as (Hlen & Hok & Hno). split; [done|]. split; [|apply Hok].
  split; [apply Hok|].
  intros (c & Hc & Hpub). destruct (decide (Code res = StatusOK)) as [|Hne]; [done|].
  specialize (Hno Hne c Hc). congruence.
Qed.

(** ** Which servers are contacted *)

Lemma attempt_targets r roomID server w res w' tr :
  joinRoomUsingServer ext r roomID server w = (res, w', tr) ->
  (makeJoinTargets tr = [] \/ makeJoinTargets tr = [server]) /\
  sublist (sendJoinTargets tr) (makeJoinTargets tr) /\
  warnedServers tr = [] /\
  (forall e, CLog LevelError e None "failed to join through any server" ∉ tr) /\
  (forall s room u vs ans, CMakeJoin s room u vs ans ∈ tr ->
     room = roomID /\ u = userID r).
Proof.
  unfold joinRoomUsingServer. intros H. split_run;
    (split; [auto|]);
    (split; [first [apply sublist_nil_l | by repeat constructor]|]);
    (split; [done|]);
    (split; [intros ? Hc; split_mem; done|]);
    intros ? ? ? ? ? Hc; split_mem; done.
Qed.

Lemma makeJoinTargets_app tr1 tr2 :
  makeJoinTargets (tr1 ++ tr2) = makeJoinTargets tr1 ++ makeJoinTargets tr2.
Proof. apply omap_app. Qed.

Lemma sendJoinTargets_app tr1 tr2 :
  sendJoinTargets (tr1 ++ tr2) = sendJoinTargets tr1 ++ sendJoinTargets tr2.
Proof. apply omap_app. Qed.

Lemma warnedServers_app tr1 tr2 :
  warnedServers (tr1 ++ tr2) = warnedServers tr1 ++ warnedServers tr2.
Proof. apply omap_app. Qed.

Lemma tryServers_targets r roomID servers lastErr w res w' tr :
  tryServers ext r roomID servers lastErr w = (res, w', tr) ->
  sublist (makeJoinTargets tr) servers /\
  sublist (sendJoinTargets tr) (makeJoinTargets tr) /\
  (exists post, servers = warnedServers tr ++ post) /\
  ((exists e, CLog LevelError e None "failed to join through any server" ∈ tr) ->
     warnedServers tr = servers) /\
  (forall s room u vs ans, CMakeJoin s room u vs ans ∈ tr ->
     room = roomID /\ u = userID r).
Proof.
  revert lastErr w res w' tr.
  induction servers as [|server rest IH]; intros lastErr w res w' tr; simpl.
  - unfold bind, log, ret. intros H. simplify_eq/=.
    split; [constructor|]. split; [constructor|]. split; [by exists []|].
    split; [done|]. intros s room u vs ans Hc. split_mem.
  - unfold bind at 1. intros H.
    destruct (joinRoomUsingServer ext r roomID server w) as [[a w1] t1] eqn:Ha.
    apply attempt_targets in Ha as (Hmj & Hsj & Hwarn & Hfinal & Hroom).
    destruct a as [err|response].
    + unfold bind, log in H.
      destruct (tryServers ext r roomID rest (Some err) w1) as [[b w2] t2] eqn:Hb.
      apply IH in Hb as (IHmj & IHsj & [post IHpre] & IHall & IHroom).
      simplify_eq/=.
      rewrite makeJoinTargets_app, sendJoinTargets_app, warnedServers_app, Hwarn.
      simpl. split; [|split; [|split; [|split]]].
      * destruct Hmj as [->| ->]; simpl; by constructor.
      * by apply sublist_app.
      * by exists post.
      * intros [e He]. f_equal. apply IHall. exists e.
        apply elem_of_app in He as [He|He]; [by apply Hfinal in He|].
        by apply elem_of_cons in He as [?|He].
      * intros s room u vs ans [Hc|Hc]%elem_of_app; [by eapply Hroom|].
        apply elem_of_cons in Hc as [?|Hc]; [done|]. by eapply IHroom.
    + unfold ret in H. simplify_eq/=. rewrite app_nil_r.
      split; [|split; [done|split; [|split; [|done]]]].
      * destruct Hmj as [->| ->];
          [apply sublist_nil_l|apply sublist_skip, sublist_nil_l].
      * rewrite Hwarn. by eexists.
      * intros [e He]. by apply Hfinal in He.
Qed.

(** X4: in a request handled by [joinRoomUsingServers], the servers that
    make-join is called on are candidates, called in the order of the
    candidate list and each at most once per occurrence in it; send-join is
    called only on servers make-join was called on, in the same order; and
    every make-join call is for the room and the user of the request. *)
Theorem candidates_contacted_in_order r roomID servers w res w' tr :
  joinRoomUsingServers ext r roomID servers w = (res, w', tr) ->
  sublist (makeJoinTargets tr) servers /\
  sublist (sendJoinTargets tr) (makeJoinTargets tr) /\
  (forall s room u vs ans, CMakeJoin s room u vs ans ∈ tr ->
     room = roomID /\ u = userID r).
Proof.
  unfold joinRoomUsingServers. intros H.
  destruct (writeToBuilder ext r zeroEventBuilder roomID) as [err|eb].
  { unfold bind, log, ret in H. simplify_eq/=.
    split; [apply sublist_nil_l|]. split; [constructor|].
    intros s room u vs ans Hc. split_mem. }
  unfold bind at 1, call at 1 in H.
  destruct (BuildEvent ext eb (cfg r) (evTime r) (queryAPI r) w) as [built w1].
  destruct built as [err|[event roomVersion]].
  - case_decide.
    + split_run. split; [apply sublist_nil_l|]. split; [constructor|].
      intros s room u vs ans Hc. split_mem; done.
    + destruct servers as [|server rest].
      * split_run. split; [constructor|]. split; [constructor|].
        intros s room u vs ans Hc. split_mem; done.
      * destruct (tryServers ext r roomID (server :: rest) None w1)
          as [[b w2] t2] eqn:Hb.
        apply tryServers_targets in Hb as (Hmj & Hsj & _ & _ & Hroom).
        simplify_eq/=. split; [done|]. split; [done|].
        intros s room u vs ans [?|Hc]%elem_of_cons; [done|]. by eapply Hroom.
  - split_run; (split; [apply sublist_nil_l|]); (split; [constructor|]);
      intros s room u vs ans Hc; split_mem; done.
Qed.

Lemma allFailed_warned r roomID pre w e w1 t1 e1 :
  allFailed ext r roomID pre w e w1 t1 e1 -> warnedServers t1 = pre.
Proof.
  induction 1 as [|server rest w e err w1 t1 w2 t2 e' Ha _ IH]; [done|].
  apply attempt_targets in Ha as (_ & _ & Hwarn & _).
  rewrite warnedServers_app, Hwarn. simpl. by rewrite IH.
Qed.

(** X5: the warnings "Failed to join room using server" of the loop name
    exactly the candidates whose attempt ended in an error, one warning
    each, in the order of the list: the run splits the candidates into a
    prefix [pre], all of whose attempts fail, each followed by its warning,
    and a rest; the warned servers are [pre]; and either the rest is empty,
    and the run ends with the error line "failed to join through any
    server", or the attempt on the first candidate of the rest returns a
    response, which is the outcome, and the trace ends with that attempt,
    without a warning about it.  When the error line is in the trace, every
    candidate has been warned about. *)
Theorem warnings_name_failed_prefix r roomID servers lastErr w res w' tr :
  tryServers ext r roomID servers lastErr w = (res, w', tr) ->
  (exists pre post w1 t1 e1,
     servers = pre ++ post /\
     allFailed ext r roomID pre w lastErr w1 t1 e1 /\
     warnedServers tr = pre /\
     ((post = [] /\ w' = w1 /\ res = jsonerror.InternalServerError /\
       tr = t1 ++ [CLog LevelError e1 None "failed to join through any server"]) \/
      (exists server post' ts,
         post = server :: post' /\
         joinRoomUsingServer ext r roomID server w1 = (inr res, w', ts) /\
         warnedServers ts = [] /\
         tr = t1 ++ ts))) /\
  ((exists e, CLog LevelError e None "failed to join through any server" ∈ tr) ->
     warnedServers tr = servers).
Proof.
  intros H. split; [|by apply tryServers_targets in H as (_ & _ & _ & Hall & _)].
  apply tryServers_cases in H
    as [(pre & server & post & w1 & t1 & e1 & ts & -> & Hf & Hs & ->)
       |(t1 & e1 & Hf & -> & ->)].
  - pose proof (allFailed_warned _ _ _ _ _ _ _ _ Hf) as Hw1.
    pose proof (attempt_targets _ _ _ _ _ _ _ Hs) as (_ & _ & Hws & _).
    exists pre, (server :: post), w1, t1, e1. split; [done|]. split; [done|].
    split; [by rewrite warnedServers_app, Hw1, Hws, app_nil_r|].
    right. exists server, post, ts. done.
  - pose proof (allFailed_warned _ _ _ _ _ _ _ _ Hf) as Hw1.
    exists servers, [], w', t1, e1. split; [by rewrite app_nil_r|]. split; [done|].
    split; [by rewrite warnedServers_app, Hw1, app_nil_r|].
    left. done.
Qed.

(** ** Aliases *)

Lemma tryServers_notDirectory r roomID servers lastErr w res w' tr :
  tryServers ext r roomID servers lastErr w = (res, w', tr) ->
  Forall notDirectory tr.
Proof.
  revert lastErr w res w' tr.
  induction servers as [|server rest IH]; intros lastErr w res w' tr; simpl.
  - unfold bind, log, ret. intros H. simplify_eq/=. by repeat constructor.
  - unfold bind at 1. intros H.
    destruct (joinRoomUsingServer ext r roomID server w) as [[a w1] t1] eqn:Ha.
    assert (Forall notDirectory t1) as Ht1.
    { clear H. unfold joinRoomUsingServer in Ha. split_run; by repeat constructor. }
    destruct a as [err|response].
    + unfold bind, log in H.
      destruct (tryServers ext r roomID rest (Some err) w1) as [[b w2] t2] eqn:Hb.
      apply IH in Hb. simplify_eq/=. apply Forall_app. split; [done|].
      by constructor.
    + unfold ret in H. simplify_eq/=. by rewrite app_nil_r.
Qed.

Lemma joinRoomUsingServers_notDirectory r roomID servers w res w' tr :
  joinRoomUsingServers ext r roomID servers w = (res, w', tr) ->
  Forall notDirectory tr /\ ownCode (Code res).
Proof.
  unfold joinRoomUsingServers, ownCode. intros H.
  destruct (writeToBuilder ext r zeroEventBuilder roomID) as [err|eb].
  { unfold bind, log, ret in H. simplify_eq/=. split; [by repeat constructor|auto]. }
  unfold bind at 1, call at 1 in H.
  destruct (BuildEvent ext eb (cfg r) (evTime r) (queryAPI r) w) as [built w1].
  destruct built as [err|[event roomVersion]].
  - case_decide.
    + split_run. split; [by repeat constructor|auto].
    + destruct servers as [|server rest].
      * split_run. split; [by repeat constructor|auto].
      * destruct (tryServers ext r roomID (server :: rest) None w1)
          as [[b w2] t2] eqn:Hb.
        pose proof (tryServers_notDirectory _ _ _ _ _ _ _ _ Hb) as Hd.
        apply tryServers_publications in Hb as (Hown & _).
        simplify_eq/=. split; [by constructor|done].
  - split_run; (split; [by repeat constructor|auto]).
Qed.

(** X6: a join by an alias of the local server looks the alias up in the
    local directory first and never asks a remote directory.  When the local
    directory fails the outcome is the internal-server-error response, when
    it has no room for the alias the outcome is NotFound with a reason that
    names the alias; in both cases nothing else is called. *)
Theorem local_alias_stays_local r roomAlias localpart w res w' tr :
  SplitID ext "#" roomAlias = inr (localpart, cfgServerName (cfg r)) ->
  joinRoomByAlias ext r roomAlias w = (res, w', tr) ->
  exists ans rest,
    tr = CGetRoomIDForAlias roomAlias ans :: rest /\
    Forall notDirectory rest /\
    (forall err, ans = inl err ->
       res = jsonerror.InternalServerError /\
       rest = [CLog LevelError (Some err) None "r.aliasAPI.GetRoomIDForAlias failed"]) /\
    (ans = inr "" ->
       res = {| Code := StatusNotFound;
                JSON := jsonerror.NotFound
                          ("Room alias " +:+ roomAlias +:+ " not found.") |} /\
       rest = []).
Proof.
  intros Hsplit. unfold joinRoomByAlias. rewrite Hsplit, String.eqb_refl.
  unfold bind at 1, call at 1. intros H.
  destruct (GetRoomIDForAlias (aliasAPI r) roomAlias w) as [[err|roomID] w1].
  - split_run. eexists _, _. split; [done|]. split; [by repeat constructor|].
    split; intros; simplify_eq; done.
  - destruct (0 <? String.length roomID)%nat eqn:Hlen.
    + destruct (joinRoomUsingServers ext r roomID [cfgServerName (cfg r)] w1)
        as [[b w2] t2] eqn:Hb.
      apply joinRoomUsingServers_notDirectory in Hb as [Hd _]. simplify_eq/=.
      eexists _, _. split; [done|]. split; [done|].
      split; intros; simplify_eq; done.
    + split_run. eexists _, _. split; [done|]. split; [by repeat constructor|].
      split; intros; simplify_eq; done.
Qed.

(** X7: a join by an alias of another server starts with the lookup of the
    alias on that server, and neither directory is asked after it.  When the
    lookup fails no join call is made, and the outcome is NotFound exactly
    for an HTTP error with status 404, the internal-server-error response
    for any other error; when it succeeds the request goes on as
    [joinRoomUsingServers] on the room ID and the servers of the answer. *)
Theorem remote_alias_lookup_first r roomAlias localpart domain w res w' tr :
  SplitID ext "#" roomAlias = inr (localpart, domain) ->
  domain <> cfgServerName (cfg r) ->
  joinRoomByAlias ext r roomAlias w = (res, w', tr) ->
  exists ans rest,
    tr = CLookupRoomAlias domain roomAlias ans :: rest /\
    Forall notDirectory rest /\
    (forall err, ans = inl err ->
       (forall c, c ∈ rest -> isJoinCall c = false) /\
       Code res = match err with
                  | HTTPError code _ =>
                    if code =? StatusNotFound then StatusNotFound
                    else StatusInternalServerError
                  | _ => StatusInternalServerError
                  end) /\
    (forall resp, ans = inr resp ->
       exists w1,
         LookupRoomAlias (federation r) domain roomAlias w = (inr resp, w1) /\
         joinRoomUsingServers ext r (dirRoomID resp) (dirServers resp) w1
           = (res, w', rest)).
Proof.
  intros Hsplit Hne. unfold joinRoomByAlias. rewrite Hsplit.
  rewrite (proj2 (String.eqb_neq _ _) Hne).
  unfold joinRoomByRemoteAlias, bind at 1, call at 1. intros H.
  destruct (LookupRoomAlias (federation r) domain roomAlias w) as [[err|resp] w1] eqn:Hl.
  - assert (Hshape :
      (res = {| Code := StatusNotFound;
                JSON := jsonerror.NotFound "Room alias not found" |} /\
       tr = [CLookupRoomAlias domain roomAlias (inl err)] /\
       exists code msg, err = HTTPError code msg /\ (code =? StatusNotFound) = true) \/
      (res = jsonerror.InternalServerError /\
       tr = [CLookupRoomAlias domain roomAlias (inl err);
             CLog LevelError (Some err) None "r.federation.LookupRoomAlias failed"] /\
       match err with
       | HTTPError code _ => (code =? StatusNotFound) = false
       | _ => True
       end)).
    { destruct err as [|code msg|msg].
      - unfold bind, log, ret in H. simplify_eq/=. right. done.
      - destruct (code =? StatusNotFound) eqn:Hcode;
          unfold bind, log, ret in H; simplify_eq/=; [left; eauto 10|right; done].
      - unfold bind, log, ret in H. simplify_eq/=. right. done. }
    destruct Hshape as [(-> & -> & code & msg & -> & Hcode)|(-> & -> & Herr)].
    + eexists _, _. split; [done|]. split; [constructor|].
      split; [|intros; simplify_eq].
      intros err0 Heq. simplify_eq. split; [intros c Hc; split_mem|].
      simpl. by rewrite Hcode.
    + eexists _, _. split; [done|]. split; [by repeat constructor|].
      split; [|intros; simplify_eq].
      intros err0 Heq. simplify_eq. split; [intros c Hc; split_mem; done|].
      simpl. destruct err0; [done| |done]. by rewrite Herr.
  - destruct (joinRoomUsingServers ext r (dirRoomID resp) (dirServers resp) w1)
      as [[b w2] t2] eqn:Hb.
    pose proof (joinRoomUsingServers_notDirectory _ _ _ _ _ _ _ Hb) as [Hd _].
    simplify_eq/=. eexists _, _. split; [done|]. split; [done|].
    split; [intros; simplify_eq|]. intros resp0 Hresp. simplify_eq. eauto.
Qed.

(** ** Joins by room ID *)

Lemma inviterServers_error pre id post acc (sm : gmap ServerName bool) err :
  Forall (fun i => exists l d, SplitID ext "@" i = inr (l, d)) pre ->
  SplitID ext "@" id = inl err ->
  inviterServers ext (pre ++ id :: post) acc sm = inl err.
Proof.
  intros Hpre Hid. revert acc sm.
  induction Hpre as [|i pre (l & d & Hi) _ IH]; intros acc sm; simpl.
  - by rewrite Hid.
  - rewrite Hi. by destruct (negb (seen sm d)).
Qed.

(** X8: one inviter user ID that [SplitID] rejects fails the whole join by
    room ID: the outcome is the internal-server-error response, the error
    logged is that of the first such user ID, and nothing is called after the
    invite query, whatever other inviters or the room ID would have
    offered. *)
Theorem malformed_inviter_fails_join r roomID w pre id post err w1 :
  QueryInvitesForUser (queryAPI r) roomID (userID r) w
    = (inr (pre ++ id :: post), w1) ->
  Forall (fun i => exists l d, SplitID ext "@" i = inr (l, d)) pre ->
  SplitID ext "@" id = inl err ->
  joinRoomByID ext r roomID w
  = (jsonerror.InternalServerError, w1,
     [CQueryInvitesForUser roomID (userID r) (inr (pre ++ id :: post));
      CLog LevelError (Some err) None "gomatrixserverlib.SplitID failed"]).
Proof.
  intros Hq Hpre Hid. unfold joinRoomByID, bind at 1, call at 1. rewrite Hq.
  unfold candidateServers.
  rewrite (inviterServers_error pre id post [] ∅ err Hpre Hid). done.
Qed.

(** X9: when all user IDs and the room ID split, the candidate list of a
    join by room ID is empty exactly when there is no inviter and the domain
    of the room ID is the local server name.  In that case, if the room is
    not known locally, the join ends with NotFound after the invite query and
    the local attempt. *)
Theorem no_candidates_iff_local_room_without_invites
    r ids doms roomID localpart rd :
  Forall2 (fun id d => exists l, SplitID ext "@" id = inr (l, d)) ids doms ->
  SplitID ext "!" roomID = inr (localpart, rd) ->
  (candidateServers ext r ids roomID = inr []
     <-> ids = [] /\ rd = cfgServerName (cfg r)) /\
  (forall w w1 eb w2,
     ids = [] -> rd = cfgServerName (cfg r) ->
     QueryInvitesForUser (queryAPI r) roomID (userID r) w = (inr ids, w1) ->
     writeToBuilder ext r zeroEventBuilder roomID = inr eb ->
     BuildEvent ext eb (cfg r) (evTime r) (queryAPI r) w1 = (inl ErrRoomNoExists, w2) ->
     joinRoomByID ext r roomID w
     = ({| Code := StatusNotFound;
           JSON := jsonerror.NotFound "No candidate servers found for room" |}, w2,
        [CQueryInvitesForUser roomID (userID r) (inr []);
         CBuildEvent eb (evTime r) (inl ErrRoomNoExists)])).
Proof.
  intros Hsplit Hroom.
  assert (Hiff : candidateServers ext r ids roomID = inr []
                 <-> ids = [] /\ rd = cfgServerName (cfg r)).
  { unfold candidateServers.
    destruct (inviterServers_spec ext ids doms [] ∅ Hsplit) as (sm' & -> & Hsm').
    { intros d. unfold seen. rewrite lookup_empty, elem_of_nil. naive_solver. }
    rewrite filter_not_elem_of_nil, Hroom. simpl.
    destruct Hsplit as [|id d ids doms _ _]; simpl.
    - assert (seen sm' rd = false) as ->.
      { destruct (seen sm' rd) eqn:Hs; [|done].
        apply Hsm' in Hs. rewrite elem_of_nil in Hs. naive_solver. }
      destruct (String.eqb_spec rd (cfgServerName (cfg r))); simpl; naive_solver.
    - split; [|naive_solver]. by case_match. }
  split; [done|].
  intros w w1 eb w2 -> -> Hq Hw Hb.
  unfold joinRoomByID, bind at 1, call at 1. rewrite Hq.
  rewrite (proj2 Hiff) by done.
  unfold joinRoomUsingServers. rewrite Hw. unfold bind, call. rewrite Hb.
  rewrite decide_False by naive_solver. done.
Qed.

(** ** The entry point *)

Lemma joinRoomUsingServers_facts r roomID servers w res w' tr :
  joinRoomUsingServers ext r roomID servers w = (res, w', tr) ->
  Forall (fun eb => exists room, isJoinDraft ext r room eb) (finalised tr) /\
  ownCode (Code res).
Proof.
  intros H. split.
  - apply joinRoomUsingServers_finalised in H.
    eapply Forall_impl; [exact H|]. intros eb Heb. by exists roomID.
  - by apply joinRoomUsingServers_notDirectory in H as [_ ?].
Qed.

Lemma joinRoomByID_facts r roomID w res w' tr :
  joinRoomByID ext r roomID w = (res, w', tr) ->
  Forall (fun eb => exists room, isJoinDraft ext r room eb) (finalised tr) /\
  ownCode (Code res).
Proof.
  unfold joinRoomByID, bind at 1, call at 1, ownCode. intros H.
  destruct (QueryInvitesForUser (queryAPI r) roomID (userID r) w) as [[err|ids] w1].
  - split_run. split; [constructor|auto].
  - destruct (candidateServers ext r ids roomID) as [err|servers].
    + split_run. split; [constructor|auto].
    + destruct (joinRoomUsingServers ext r roomID servers w1) as [[b w2] t2] eqn:Hb.
      apply joinRoomUsingServers_facts in Hb as [Hd Hc]. by simplify_eq/=.
Qed.

Lemma joinRoomByAlias_facts r roomAlias w res w' tr :
  joinRoomByAlias ext r roomAlias w = (res, w', tr) ->
  Forall (fun eb => exists room, isJoinDraft ext r room eb) (finalised tr) /\
  ownCode (Code res).
Proof.
  unfold joinRoomByAlias, ownCode. intros H.
  destruct (SplitID ext "#" roomAlias) as [err|[lp domain]].
  { split_run. split; [constructor|auto]. }
  destruct (domain =? cfgServerName (cfg r))%string.
  - unfold bind at 1, call at 1 in H.
    destruct (GetRoomIDForAlias (aliasAPI r) roomAlias w) as [[err|roomID] w1].
    + split_run. split; [constructor|auto].
    + destruct (0 <? String.length roomID)%nat.
      * destruct (joinRoomUsingServers ext r roomID [cfgServerName (cfg r)] w1)
          as [[b w2] t2] eqn:Hb.
        apply joinRoomUsingServers_facts in Hb as [Hd Hc]. by simplify_eq/=.
      * split_run. split; [constructor|auto].
  - unfold joinRoomByRemoteAlias, bind at 1, call at 1 in H.
    destruct (LookupRoomAlias (federation r) domain roomAlias w) as [[err|resp] w1].
    + destruct err as [|code msg|msg]; [| destruct (code =? StatusNotFound) |];
        unfold bind, log, ret in H; simplify_eq/=; (split; [constructor|auto]).
    + destruct (joinRoomUsingServers ext r (dirRoomID resp) (dirServers resp) w1)
        as [[b w2] t2] eqn:Hb.
      apply joinRoomUsingServers_facts in Hb as [Hd Hc]. by simplify_eq/=.
Qed.

Lemma joinContent_lookup (content0 : Content) (profile : Profile) :
  joinContent content0 profile !! "membership" = Some (JString Join) /\
  joinContent content0 profile !! "displayname" = Some (JString (DisplayName profile)) /\
  joinContent content0 profile !! "avatar_url" = Some (JString (AvatarURL profile)).
Proof.
  unfold joinContent, Content in *. repeat split.
  - rewrite !lookup_insert_ne by discriminate. apply lookup_insert_eq.
  - rewrite lookup_insert_ne by discriminate. apply lookup_insert_eq.
  - apply lookup_insert_eq.
Qed.

(** X10: every draft that a run of the entry point hands over to be
    finalised carries as content the body of the request with the keys
    membership, displayname and avatar_url written over it: membership is
    join and the other two are those of the profile of the user, whatever
    the body said; its sender and state key are the user of the device. *)
Theorem entry_point_fixes_membership_content
    (request : Request) (device : Device) (target : string) (config : Config)
    (fed : @FederationClient W Event RespState)
    (prod : @RoomserverProducer W Event RespState)
    (query : @RoomserverQueryAPI W) (alias : @RoomserverAliasAPI W)
    (ring : @KeyRing W Event RespState) (accountDB : @AccountsDatabase W)
    w out w' tr :
  JoinRoomByIDOrAlias ext request device target config fed prod query alias
    ring accountDB w = (out, w', tr) ->
  forall eb, eb ∈ finalised tr ->
  exists content0 localpart profile,
    CUnmarshalJSONRequest (inr (Some content0)) ∈ tr /\
    CGetProfileByLocalpart localpart (inr profile) ∈ tr /\
    marshalContent ext (joinContent content0 profile) = inr (Content_ eb) /\
    joinContent content0 profile !! "membership" = Some (JString Join) /\
    joinContent content0 profile !! "displayname"
      = Some (JString (DisplayName profile)) /\
    joinContent content0 profile !! "avatar_url"
      = Some (JString (AvatarURL profile)) /\
    Sender eb = UserID device /\ StateKey eb = Some (UserID device).
Proof.
  unfold JoinRoomByIDOrAlias, bind at 1, call at 1. intros H eb Heb.
  destruct (UnmarshalJSONRequest ext request w) as [[resErr|body] w1].
  { unfold ret in H. simplify_eq/=. by apply elem_of_nil in Heb. }
  destruct (ParseTSParam ext request) as [msg|ts].
  { unfold ret in H. simplify_eq/=. by apply elem_of_nil in Heb. }
  destruct (SplitID ext "@" (UserID device)) as [err|[localpart dom]].
  { unfold bind, log, ret in H. simplify_eq/=. by apply elem_of_nil in Heb. }
  unfold bind at 1, call at 1 in H.
  destruct (GetProfileByLocalpart accountDB localpart w1) as [[err|profile] w2].
  { unfold bind, log, ret in H. simplify_eq/=. by apply elem_of_nil in Heb. }
  destruct body as [content0|];
    [|unfold ret in H; simplify_eq/=; by apply elem_of_nil in Heb].
  set (r := {| req := request; evTime := ts;
               content := <["avatar_url" := JString (AvatarURL profile)]>
                            (<["displayname" := JString (DisplayName profile)]>
                               (<["membership" := JString Join]> content0));
               userID := UserID device; cfg := config; federation := fed;
               producer := prod; queryAPI := query; aliasAPI := alias;
               keyRing := ring |}) in H.
  assert (Hdraft : forall t : list (@Call Event RespState), eb ∈ finalised t ->
            Forall (fun eb => exists room, isJoinDraft ext r room eb) (finalised t) ->
            marshalContent ext (joinContent content0 profile) = inr (Content_ eb) /\
            Sender eb = UserID device /\ StateKey eb = Some (UserID device)).
  { intros t Hin Hall. rewrite Forall_forall in Hall.
    destruct (Hall eb Hin) as (room & _ & Hm & Hs & Hk & _). done. }
  destruct (joinContent_lookup content0 profile) as (Hm & Hd & Ha).
  exists content0, localpart, profile.
  destruct (HasPrefix target "!").
  - unfold bind, ret in H.
    destruct (joinRoomByID ext r target w2) as [[res w3] t] eqn:Hrun.
    apply joinRoomByID_facts in Hrun as [Hall _]. simplify_eq/=.
    rewrite app_nil_r in Heb.
    destruct (Hdraft t Heb Hall) as (? & ? & ?).
    rewrite !elem_of_cons. repeat split; auto.
  - destruct (HasPrefix target "#").
    + unfold bind, ret in H.
      destruct (joinRoomByAlias ext r target w2) as [[res w3] t] eqn:Hrun.
      apply joinRoomByAlias_facts in Hrun as [Hall _]. simplify_eq/=.
      rewrite app_nil_r in Heb.
      destruct (Hdraft t Heb Hall) as (? & ? & ?).
      rewrite !elem_of_cons. repeat split; auto.
    + destruct (firstRune target); unfold ret in H; simplify_eq/=;
        by apply elem_of_nil in Heb.
Qed.


End MoreProperties.

(** * Properties of the key store *)

Section StorageProperties.

Import Storage.

Lemma wrapInt_small bits x :
  0 < bits -> - 2 ^ (bits - 1) <= x < 2 ^ (bits - 1) -> wrapInt bits x = x.
Proof.
  intros Hb Hx. unfold wrapInt.
  assert (2 ^ bits = 2 * 2 ^ (bits - 1)) as ->.
  { rewrite <-Z.pow_succ_r by lia. f_equal. lia. }
  rewrite Z.mod_small by lia. lia.
Qed.

Lemma loop_lookup bits elems (m : gmap string Z) a :
  0 < bits ->
  (forall k n, m !! k = Some n ->
     0 <= n /\ n + Z.of_nat (length elems) < 2 ^ (bits - 1)) ->
  Z.of_nat (length elems) < 2 ^ (bits - 1) ->
  SelectOneTimeKeyCount_loop bits elems m !! a
  = match m !! a with
    | Some n => Some (n + Z.of_nat (length (filter (oneTime a) elems)))
    | None =>
      if decide (a ∈ map Key_algorithm elems)
      then Some (Z.of_nat (length (filter (oneTime a) elems)))
      else None
    end.
Proof.
  intros Hb. revert m. induction elems as [|val rest IH]; intros m Hm Hlen.
  - simpl. destruct (m !! a); [f_equal; lia|done].
  - cbn [SelectOneTimeKeyCount_loop].
    set (k := Key_algorithm val).
    set (m1 := match m !! k with Some _ => m | None => <[k:=0]> m end).
    set (n0 := default 0 (m !! k)).
    assert (Hm1k : m1 !! k = Some n0).
    { unfold m1, n0. destruct (m !! k) eqn:Hk; simpl; [done|]. apply lookup_insert_eq. }
    assert (Hm1o : forall j, j <> k -> m1 !! j = m !! j).
    { intros j Hj. unfold m1. destruct (m !! k); [done|]. by rewrite lookup_insert_ne. }
    assert (Hn0 : 0 <= n0 /\ n0 + Z.of_nat (length (val :: rest)) < 2 ^ (bits - 1)).
    { unfold n0. destruct (m !! k) eqn:Hk; simpl; [by apply (Hm k)|]. simpl in Hlen. lia. }
    rewrite Hm1k. simpl default.
    set (m2 := if (Key_type val =? "one_time_key")%string
               then <[k:=wrapInt bits (n0 + 1)]> m1 else m1).
    set (d := if (Key_type val =? "one_time_key")%string then 1 else 0).
    assert (Hm2k : m2 !! k = Some (n0 + d)).
    { unfold m2, d. destruct (Key_type val =? "one_time_key")%string.
      - rewrite lookup_insert_eq. f_equal. apply wrapInt_small; [done|].
        simpl length in Hn0. lia.
      - rewrite Hm1k. f_equal. lia. }
    assert (Hm2o : forall j, j <> k -> m2 !! j = m !! j).
    { intros j Hj. unfold m2. destruct (Key_type val =? "one_time_key")%string.
      - rewrite lookup_insert_ne by done. by apply Hm1o.
      - by apply Hm1o. }
    assert (Hd : 0 <= d <= 1).
    { unfold d. destruct (Key_type val =? "one_time_key")%string; lia. }
    rewrite IH; cycle 1.
    { intros j n Hj. destruct (decide (j = k)) as [->|Hne].
      - rewrite Hm2k in Hj. simplify_eq. simpl length in Hn0. lia.
      - rewrite Hm2o in Hj by done. apply Hm in Hj. simpl length in Hj. lia. }
    { simpl length in Hlen. lia. }
    destruct (decide (a = k)) as [->|Hne].
    + rewrite Hm2k.
      assert (Z.of_nat (length (filter (oneTime k) (val :: rest)))
              = d + Z.of_nat (length (filter (oneTime k) rest))) as ->.
      { rewrite filter_cons. unfold d.
        destruct (String.eqb_spec (Key_type val) "one_time_key").
        - rewrite decide_True by (by split). simpl length. lia.
        - rewrite decide_False by (by intros [_ ?]). lia. }
      unfold n0. destruct (m !! k); simpl.
      * f_equal; lia.
      * rewrite decide_True by (simpl; fold k; apply list_elem_of_here).
        f_equal; lia.
    + rewrite Hm2o by done.
      assert (filter (oneTime a) (val :: rest) = filter (oneTime a) rest) as ->.
      { rewrite filter_cons_False; [done|]. intros [Hk _]. by apply Hne. }
      destruct (m !! a); [done|].
      simpl map. fold k. apply decide_ext. rewrite elem_of_cons. naive_solver.
Qed.

(** X12: the map [SelectOneTimeKeyCount] builds from the rows it selected
    has an entry for exactly the algorithms that occur in the rows, and the
    entry of an algorithm is the number of its rows of type "one_time_key":
    an algorithm with rows of other types only is reported with 0, not left
    out.  (As long as the rows are fewer than the largest [int].) *)
Theorem one_time_key_counts bits elems a :
  0 < bits ->
  Z.of_nat (length elems) < 2 ^ (bits - 1) ->
  SelectOneTimeKeyCount_counts bits elems !! a
  = if decide (a ∈ map Key_algorithm elems)
    then Some (Z.of_nat (length (filter (oneTime a) elems)))
    else None.
Proof.
  intros Hb Hlen. unfold SelectOneTimeKeyCount_counts.
  rewrite loop_lookup; [by rewrite lookup_empty|done| |done].
  intros k n Hk. by rewrite lookup_empty in Hk.
Qed.

Lemma Split_no_sep a sep : occurrences sep a = 0%nat -> Split a sep = [a].
Proof.
  induction a as [|c a IH]; simpl; [done|].
  destruct (Ascii.eqb c sep); [done|]. intros H. by rewrite IH.
Qed.

Lemma Split_app_sep a sep rest :
  occurrences sep a = 0%nat ->
  Split (a +:+ String sep rest) sep = a :: Split rest sep.
Proof.
  induction a as [|c a IH]; simpl.
  - intros _. by rewrite Ascii.eqb_refl.
  - destruct (Ascii.eqb c sep); [done|]. intros H. by rewrite IH.
Qed.

(** X13: a non-empty list of algorithms none of which holds a comma comes
    back from the store as it went in: [SelectAl] splits the string that
    [InsertAl] joined into the same list. *)
Theorem algorithms_round_trip (al : list string) :
  al <> [] ->
  Forall (fun a => occurrences "," a = 0%nat) al ->
  SelectAl_split (InsertAl_joined al) = al.
Proof.
  unfold SelectAl_split, InsertAl_joined. intros Hne Hall.
  induction Hall as [|a rest Ha Hrest IH]; [done|].
  destruct rest as [|b rest].
  - by apply Split_no_sep.
  - change (Join (a :: b :: rest) ",")
      with (a +:+ String "," (Join (b :: rest) ",")).
    rewrite Split_app_sep by done. f_equal. by apply IH.
Qed.

Lemma Split_cons s sep : exists piece pieces, Split s sep = piece :: pieces.
Proof.
  induction s as [|c s (piece & pieces & IH)]; simpl; [eauto|].
  destruct (Ascii.eqb c sep); [eauto|]. rewrite IH. eauto.
Qed.

Lemma Join_cons_char c piece pieces sep :
  Join (String c piece :: pieces) sep = String c (Join (piece :: pieces) sep).
Proof. by destruct pieces. Qed.

(** X14: whatever string the store holds, [SelectAl] makes a list of one
    piece more than the string has commas, so never the empty list, and
    joining the pieces again gives the string back.  In particular the empty
    list of algorithms, which [InsertAl] stores as the empty string, is read
    back as a list of one empty name. *)
Theorem stored_algorithms_split (s : string) :
  length (SelectAl_split s) = S (occurrences "," s) /\
  InsertAl_joined (SelectAl_split s) = s /\
  SelectAl_split (InsertAl_joined []) = [""].
Proof.
  unfold SelectAl_split, InsertAl_joined. split; [|split; [|done]].
  - induction s as [|c s IH]; simpl; [done|].
    destruct (Ascii.eqb c ","); simpl; [by rewrite IH|].
    destruct (Split s ","); simpl in *; lia.
  - induction s as [|c s IH]; simpl; [done|].
    destruct (Ascii.eqb_spec c ",") as [->|Hne].
    + destruct (Split_cons s ",") as (piece & pieces & Hs).
      rewrite Hs in *. simpl in *. by rewrite IH.
    + destruct (Split_cons s ",") as (piece & pieces & Hs).
      rewrite Hs in *. rewrite Join_cons_char. by rewrite IH.
Qed.

End StorageProperties.

(** * The further properties on the concrete deployments *)

Import Scenario2 Storage.

Lemma failed_attempt_publishes_nothing_witness :
  let run := joinRoomUsingServer Scenario.ext r12 "!room:x.org" "forged.org" 0%nat in
  run.1.1 = inl (ErrOther "signature does not verify") /\
  Forall (fun c => isPublish c = false) run.2.
Proof.
  intros run.
  assert (Hrun : run = (inl (ErrOther "signature does not verify"), run.1.2, run.2))
    by (vm_compute; reflexivity).
  split; [vm_compute; reflexivity|]. apply Forall_forall.
  exact (failed_attempt_publishes_nothing Scenario.ext r12 "!room:x.org" "forged.org"
           0%nat _ _ _ Hrun).
Defined.

Lemma published_is_sent_and_verified_witness :
  let run := joinRoomUsingServer Scenario.ext r12 "!room:x.org" "good.org" 0%nat in
  CSendEventWithState "state held by good.org"
    (Headered (signed "!room:x.org" "2") "2") None ∈ run.2 /\
  run.2 = [CQueryRoomVersionCapabilities (inr stable12);
           CMakeJoin "good.org" "!room:x.org" "@alice:local.org" ["1"; "2"]
             (inr {| JoinEvent := template "good.org"; mjRoomVersion := "2" |});
           CBuild (joinDraft "!room:x.org") "2" (inr (signed "!room:x.org" "2"));
           CSendJoin "good.org" (signed "!room:x.org" "2") "2"
             (inr {| sjRespState := "state held by good.org" |});
           CCheck {| sjRespState := "state held by good.org" |}
             (signed "!room:x.org" "2") None;
           CSendEventWithState "state held by good.org"
             (Headered (signed "!room:x.org" "2") "2") None].
Proof.
  intros run.
  assert (Hin : CSendEventWithState "state held by good.org"
                  (Headered (signed "!room:x.org" "2") "2") None ∈ run.2).
  { vm_compute. do 5 apply list_elem_of_further. apply list_elem_of_here. }
  split; [exact Hin|].
  destruct (published_is_sent_and_verified Scenario.ext r12 "!room:x.org" "good.org"
              0%nat run.1.1 run.1.2 run.2 _ _ _ eq_refl Hin)
    as (available & respMakeJoin & eb & event & respSendJoin
        & _ & _ & _ & _ & Htr).
  transitivity (run.2); [reflexivity|]. rewrite Htr at 1.
  vm_compute in Htr. simplify_eq. reflexivity.
Defined.

Lemma at_most_one_publication_witness :
  let run := joinRoomUsingServers Scenario.ext r12 "!room:x.org"
               ["down.org"; "good.org"] 0%nat in
  (length (publications run.2) <= 1)%nat /\
  run.1.1 = roomIDResponse "!room:x.org".
Proof.
  intros run.
  destruct (at_most_one_publication Scenario.ext r12 "!room:x.org"
              ["down.org"; "good.org"] 0%nat run.1.1 run.1.2 run.2 eq_refl)
    as (Hlen & _ & Hok).
  split; [exact Hlen|]. apply Hok. vm_compute. reflexivity.
Defined.

Lemma candidates_contacted_in_order_witness :
  let run := joinRoomUsingServers Scenario.ext r12 "!room:x.org"
               ["down.org"; "future.org"; "good.org"] 0%nat in
  makeJoinTargets run.2 = ["down.org"; "future.org"] /\
  sublist (makeJoinTargets run.2) ["down.org"; "future.org"; "good.org"] /\
  sublist (sendJoinTargets run.2) (makeJoinTargets run.2).
Proof.
  intros run.
  destruct (candidates_contacted_in_order Scenario.ext r12 "!room:x.org"
              ["down.org"; "future.org"; "good.org"] 0%nat run.1.1 run.1.2 run.2
              eq_refl) as (Hmj & Hsj & _).
  split; [vm_compute; reflexivity|]. split; [exact Hmj|exact Hsj].
Defined.

Lemma warnings_name_failed_prefix_witness :
  (let run := tryServers Scenario.ext r12 "!room:x.org" ["down.org"; "forged.org"]
                None 0%nat in
   warnedServers run.2 = ["down.org"; "forged.org"]) /\
  (let run := tryServers Scenario.ext r12 "!room:x.org"
                ["down.org"; "good.org"; "other.org"] None 0%nat in
   warnedServers run.2 = ["down.org"] /\
   exists post, ["down.org"; "good.org"; "other.org"] = warnedServers run.2 ++ post).
Proof.
  split.
  - intros run.
    destruct (warnings_name_failed_prefix Scenario.ext r12 "!room:x.org"
                ["down.org"; "forged.org"] None 0%nat run.1.1 run.1.2 run.2 eq_refl)
      as [_ Hall].
    apply Hall. exists (Some (ErrOther "signature does not verify")).
    vm_compute. repeat first [apply list_elem_of_here | apply list_elem_of_further].
  - intros run. split; [vm_compute; reflexivity|].
    destruct (warnings_name_failed_prefix Scenario.ext r12 "!room:x.org"
                ["down.org"; "good.org"; "other.org"] None 0%nat
                run.1.1 run.1.2 run.2 eq_refl)
      as [(pre & post & w1 & t1 & e1 & Hs & _ & Hw & _) _].
    exists post. rewrite Hw. exact Hs.
Defined.

Lemma local_alias_stays_local_witness :
  let run := joinRoomByAlias Scenario.ext r12 "#unknown:local.org" 0%nat in
  run.1.1 = {| Code := StatusNotFound;
               JSON := jsonerror.NotFound "Room alias #unknown:local.org not found." |}.
Proof.
  intros run.
  destruct (local_alias_stays_local Scenario.ext r12 "#unknown:local.org" "unknown"
              0%nat run.1.1 run.1.2 run.2 eq_refl eq_refl)
    as (ans & rest & Htr & _ & _ & Hnone).
  vm_compute in Htr. injection Htr as <- <-.
  destruct (Hnone eq_refl) as [Hres _]. exact Hres.
Defined.

Lemma remote_alias_lookup_first_witness :
  let run := joinRoomByAlias Scenario.ext r12 "#foo:elsewhere.org" 0%nat in
  run.2 = [CLookupRoomAlias "elsewhere.org" "#foo:elsewhere.org"
             (inl (HTTPError 404 "not found"))] /\
  Code run.1.1 = StatusNotFound.
Proof.
  intros run.
  destruct (remote_alias_lookup_first Scenario.ext r12 "#foo:elsewhere.org" "foo"
              "elsewhere.org" 0%nat run.1.1 run.1.2 run.2 eq_refl)
    as (ans & rest & Htr & _ & Herr & _); [discriminate|reflexivity|].
  split; [vm_compute; reflexivity|].
  vm_compute in Htr. injection Htr as <- <-.
  destruct (Herr _ eq_refl) as [_ Hcode]. exact Hcode.
Defined.

Lemma malformed_inviter_fails_join_witness :
  joinRoomByID Scenario.ext rBroken "!room:c.org" 0%nat
  = (jsonerror.InternalServerError, 1%nat,
     [CQueryInvitesForUser "!room:c.org" "@alice:local.org"
        (inr ["@alice:a.org"; "@nobody"; "@carol:c.org"]);
      CLog LevelError (Some (ErrOther "invalid ID: missing ':'")) None
        "gomatrixserverlib.SplitID failed"]).
Proof.
  apply (malformed_inviter_fails_join Scenario.ext rBroken "!room:c.org" 0%nat
           ["@alice:a.org"] "@nobody" ["@carol:c.org"]
           (ErrOther "invalid ID: missing ':'") 1%nat).
  - reflexivity.
  - repeat constructor. eexists _, _. reflexivity.
  - reflexivity.
Defined.

Lemma no_candidates_iff_local_room_without_invites_witness :
  candidateServers Scenario.ext r12 [] "!lonely:local.org" = inr [] /\
  joinRoomByID Scenario.ext r12 "!lonely:local.org" 0%nat
  = ({| Code := StatusNotFound;
        JSON := jsonerror.NotFound "No candidate servers found for room" |}, 2%nat,
     [CQueryInvitesForUser "!lonely:local.org" "@alice:local.org" (inr []);
      CBuildEvent (localDraft "!lonely:local.org") 1000 (inl ErrRoomNoExists)]).
Proof.
  destruct (no_candidates_iff_local_room_without_invites Scenario.ext r12 [] []
              "!lonely:local.org" "lonely" "local.org")
    as [Hiff Hjoin]; [constructor|reflexivity|].
  split; [apply Hiff; split; reflexivity|].
  apply (Hjoin 0%nat 1%nat (localDraft "!lonely:local.org") 2%nat); reflexivity.
Defined.

Lemma entry_point_fixes_membership_content_witness :
  let run := enter "#foo:example.org" in
  finalised run.2 = [localDraft "!abc:example.org"; joinDraft "!abc:example.org"] /\
  Forall (fun eb => Sender eb = "@alice:local.org" /\
                    StateKey eb = Some "@alice:local.org")
    (finalised run.2).
Proof.
  intros run. split; [vm_compute; reflexivity|].
  apply Forall_forall. intros eb Heb.
  destruct (entry_point_fixes_membership_content Scenario.ext tt device
              "#foo:example.org" config theFederation theProducer
              (theQueryAPI stable12) theAliasAPI theKeyRing theAccounts
              0%nat run.1.1 run.1.2 run.2 eq_refl eb Heb)
    as (content0 & localpart & profile & _ & _ & _ & _ & _ & _ & Hs & Hk).
  split; [exact Hs|exact Hk].
Defined.


Lemma one_time_key_counts_witness :
  0 < 64 /\
  Z.of_nat (length someRows) < 2 ^ (64 - 1) /\
  SelectOneTimeKeyCount_counts 64 someRows !! "signed_curve25519" = Some 2 /\
  SelectOneTimeKeyCount_counts 64 someRows !! "ed25519" = Some 0 /\
  SelectOneTimeKeyCount_counts 64 someRows !! "curve25519" = None.
Proof.
  assert (H0 : 0 < 64) by reflexivity.
  assert (H1 : Z.of_nat (length someRows) < 2 ^ (64 - 1)) by reflexivity.
  split; [exact H0|]. split; [exact H1|].
  rewrite !(one_time_key_counts 64 someRows _ H0 H1).
  repeat split.
Defined.

Lemma algorithms_round_trip_witness :
  InsertAl_joined ["curve25519"; "signed_curve25519"] = "curve25519,signed_curve25519" /\
  SelectAl_split (InsertAl_joined ["curve25519"; "signed_curve25519"])
  = ["curve25519"; "signed_curve25519"].
Proof.
  split; [reflexivity|].
  apply algorithms_round_trip; [discriminate|repeat constructor].
Defined.
